(** * MCP specialist server ([python_server/server.py]): model and properties

    A shallow embedding of the three tool handlers ([health_check],
    [echo_text], [compute_sum]) and of the entry point [main], with the
    pieces of the Python runtime they rely on: exceptions matched by class,
    [try]/[except], the [asyncio.timeout] guard, the [logging]
    configuration, [os.environ.get], [str.lower], [int] with its digit
    limit and its error texts, [%s] formatting, and the look-up of the
    methods of the server object.

    Conventions.
    - A Python [str] is a Rocq [string].  Environment values and tool
      arguments are treated as sequences of 8-bit characters; [lower] and
      [int] are modelled on the ASCII range, which is where the literals
      the source compares against live.  Where a statement depends on what
      [int] makes of an arbitrary text, the text is required to be ASCII.
    - A class is named by its qualified name, with the builtin classes
      bare ([TimeoutError], but [multiprocessing.context.TimeoutError]),
      so that a name stands for one class.
    - A Python [float] is a primitive binary64 float ([PrimFloat.float]).
    - Effects are explicit: a computation yields the events it performed
      (writes to a stream, calls into the SDK) and either a value or a
      raised exception. *)

From Stdlib Require Import ZArith String Ascii List Bool Lia.
From Stdlib Require Import DecimalString DecimalPos.
From Stdlib Require Import Floats.
From stdpp Require Import gmap strings.

Local Open Scope string_scope.
Local Open Scope Z_scope.

(* ===================================================================== *)
(** ** Python runtime pieces *)
(* ===================================================================== *)

Module Py.

(** An exception object: the method resolution order of its class (the class
    itself first, each class by its qualified name, builtins bare), what
    [str(exc)] gives, and the implicit [__context__] that Python attaches
    when the exception is raised while another one is being handled. *)
#[warnings="-register-all"]
Inductive exn : Type :=
| Exn (mro : list string) (message : string) (context : option exn).

Definition exn_mro (e : exn) : list string :=
  match e with Exn mro _ _ => mro end.

Definition exn_message (e : exn) : string :=
  match e with Exn _ msg _ => msg end.

Definition exn_context (e : exn) : option exn :=
  match e with Exn _ _ ctx => ctx end.

(** The class of the exception, [type(exc)]. *)
Definition exn_class (e : exn) : string :=
  match exn_mro e with
  | cls :: _ => cls
  | [] => ""
  end.

(** [isinstance(exc, cls)]: the class [cls] occurs in the MRO of the
    exception's class. *)
Definition isinstance (e : exn) (cls : string) : bool :=
  existsb (String.eqb cls) (exn_mro e).

Definition Exception_mro : list string :=
  ["Exception"; "BaseException"; "object"].

Definition RuntimeError (msg : string) : exn :=
  Exn ("RuntimeError" :: Exception_mro) msg None.

Definition ValueError (msg : string) : exn :=
  Exn ("ValueError" :: Exception_mro) msg None.

Definition AttributeError (msg : string) : exn :=
  Exn ("AttributeError" :: Exception_mro) msg None.

(** pydantic's [ValidationError] derives from [ValueError]. *)
Definition ValidationError (msg : string) : exn :=
  Exn ("ValidationError" :: "ValueError" :: Exception_mro) msg None.

(** [asyncio.TimeoutError] is the builtin [TimeoutError] (an [OSError]) in
    every Python that has [asyncio.timeout]. *)
Definition TimeoutError (msg : string) : exn :=
  Exn ("TimeoutError" :: "OSError" :: Exception_mro) msg None.

(** [asyncio.CancelledError] and [SystemExit] derive from [BaseException]
    only, so an [except Exception] clause does not match them. *)
Definition CancelledError : exn :=
  Exn ["CancelledError"; "BaseException"; "object"] "" None.

Definition SystemExit (code : string) : exn :=
  Exn ["SystemExit"; "BaseException"; "object"] code None.

(** *** Streams, log records and events *)

Inductive stream : Type := stdout | stderr.

(** A [logging.LogRecord], kept structured: level, logger name, the message
    template with its arguments, and the [exc_info] exception. *)
Record LogRecord : Type := mkLogRecord {
  levelno : Z;
  name : string;
  msg : string;
  args : list string;
  exc_info : option exn
}.

Inductive output : Type :=
| Record_ (r : LogRecord)          (* a record formatted by a log handler *)
| Text (t : string)                (* plain text printed by the interpreter *)
| Traceback (e : exn).             (* the traceback of an uncaught exception *)

Inductive event : Type :=
| Write (s : stream) (o : output)
| Run                              (* the call [mcp.run()] *)
| RunHttp (host : string) (port : Z). (* the call [mcp.run_http(host=..., port=...)] *)

(** *** Computations: events performed, then a value or a raised exception *)

Inductive outcome (A : Type) : Type :=
| Return (a : A)
| Raise (e : exn).
Arguments Return {A} a.
Arguments Raise {A} e.

Definition io (A : Type) : Type := (list event * outcome A)%type.

Definition ret {A} (a : A) : io A := ([], Return a).

Definition raise {A} (e : exn) : io A := ([], Raise e).

Definition perform (ev : event) : io unit := ([ev], Return tt).

Definition bind {A B} (m : io A) (k : A -> io B) : io B :=
  match m with
  | (evs, Return a) => let '(evs', o) := k a in ((evs ++ evs')%list, o)
  | (evs, Raise e) => (evs, Raise e)
  end.

#[export] Instance io_ret : MRet io := @ret.
#[export] Instance io_bind : MBind io := fun A B k m => bind m k.

Definition events {A} (m : io A) : list event := fst m.
Definition result_of {A} (m : io A) : outcome A := snd m.

(** *** [try] / [except] *)

(** An [except cls as exc: ...] clause. *)
Definition except_clause (A : Type) : Type := (string * (exn -> io A))%type.

(** The first clause whose class the exception is an instance of. *)
Fixpoint select_clause {A} (e : exn) (clauses : list (except_clause A))
  : option (exn -> io A) :=
  match clauses with
  | [] => None
  | (cls, h) :: rest => if isinstance e cls then Some h else select_clause e rest
  end.

(** An exception raised while [handled] is being handled gets it as
    [__context__]. *)
Definition set_context (handled : exn) (e : exn) : exn :=
  match e with Exn mro m _ => Exn mro m (Some handled) end.

Definition try_except {A} (body : io A) (clauses : list (except_clause A)) : io A :=
  match body with
  | (evs, Return a) => (evs, Return a)
  | (evs, Raise e) =>
      match select_clause e clauses with
      | None => (evs, Raise e)
      | Some h =>
          let '(evs', o) := h e in
          ((evs ++ evs')%list,
           match o with
           | Return a => Return a
           | Raise e' => Raise (set_context e e')
           end)
      end
  end.

(** *** [str.lower], on the ASCII range *)

Definition lower_ascii (c : ascii) : ascii :=
  let n := N_of_ascii c in
  if ((65 <=? n) && (n <=? 90))%N then ascii_of_N (n + 32) else c.

Fixpoint lower (s : string) : string :=
  match s with
  | EmptyString => EmptyString
  | String c rest => String (lower_ascii c) (lower rest)
  end.

(** *** [int(text)], base 10, on ASCII text

    Grammar: optional whitespace, an optional sign, decimal digits with
    single underscores allowed between digits, optional whitespace.  The
    interpreter refuses texts with too many digits, see [int] below. *)

Definition is_space (c : ascii) : bool :=
  let n := N_of_ascii c in
  (((9 <=? n) && (n <=? 13)) || (n =? 32))%N.

Definition digit_value (c : ascii) : option Z :=
  let n := Z.of_N (N_of_ascii c) in
  if (48 <=? n) && (n <=? 57) then Some (n - 48) else None.

Fixpoint lstrip (cs : list ascii) : list ascii :=
  match cs with
  | c :: rest => if is_space c then lstrip rest else cs
  | [] => []
  end.

(** After a first digit: value so far, digits seen so far, remaining text. *)
Fixpoint digits_tail (acc : Z) (n : nat) (cs : list ascii) : option (Z * nat) :=
  match cs with
  | [] => Some (acc, n)
  | c :: rest =>
      match digit_value c with
      | Some d => digits_tail (10 * acc + d) (S n) rest
      | None =>
          if Ascii.eqb c "_" then
            match rest with
            | c' :: rest' =>
                match digit_value c' with
                | Some d => digits_tail (10 * acc + d) (S n) rest'
                | None => None
                end
            | [] => None
            end
          else if forallb is_space cs then Some (acc, n) else None
      end
  end.

Definition unsigned_literal (cs : list ascii) : option (Z * nat) :=
  match cs with
  | c :: rest =>
      match digit_value c with
      | Some d => digits_tail d 1%nat rest
      | None => None
      end
  | [] => None
  end.

(** The value and the number of digits of an integer literal. *)
Definition parse_int (s : string) : option (Z * nat) :=
  match lstrip (list_ascii_of_string s) with
  | c :: rest =>
      if Ascii.eqb c "-" then
        match unsigned_literal rest with
        | Some (v, n) => Some (- v, n)
        | None => None
        end
      else if Ascii.eqb c "+" then unsigned_literal rest
      else unsigned_literal (c :: rest)
  | [] => None
  end.

(** The conversion first scans the run of digits and underscores, counting
    the digits: after a first digit, the digits seen so far and the text
    left.  The run is malformed when an underscore is not followed by a
    digit. *)
Fixpoint run_digits (n : nat) (cs : list ascii) : option nat :=
  match cs with
  | [] => Some n
  | c :: rest =>
      match digit_value c with
      | Some _ => run_digits (S n) rest
      | None =>
          if Ascii.eqb c "_" then
            match rest with
            | c' :: rest' =>
                match digit_value c' with
                | Some _ => run_digits (S n) rest'
                | None => None
                end
            | [] => None
            end
          else Some n
      end
  end.

(** The digits of the run that follows the blanks and the sign. *)
Definition scanned_digits (s : string) : option nat :=
  match lstrip (list_ascii_of_string s) with
  | c :: rest =>
      match (if Ascii.eqb c "-" || Ascii.eqb c "+" then rest else c :: rest) with
      | c0 :: rest0 =>
          match digit_value c0 with
          | Some _ => run_digits 1%nat rest0
          | None => None
          end
      | [] => None
      end
  | [] => None
  end.

(** [repr(s)] for ASCII text: single quotes unless the text holds one and
    no double quote; the quote in use and the backslash are escaped, tab,
    line feed and carriage return are written [\t], [\n], [\r], and the
    other control characters in hexadecimal. *)
Definition double_quote : ascii := ascii_of_N 34.
Definition single_quote : ascii := ascii_of_N 39.
Definition backslash : ascii := ascii_of_N 92.

Definition hex_digit (n : N) : ascii :=
  if (n <? 10)%N then ascii_of_N (48 + n) else ascii_of_N (87 + n).

Definition repr_char (quote c : ascii) : string :=
  let n := N_of_ascii c in
  if Ascii.eqb c quote || Ascii.eqb c backslash then String backslash (String c "")
  else if (n =? 9)%N then String backslash "t"
  else if (n =? 10)%N then String backslash "n"
  else if (n =? 13)%N then String backslash "r"
  else if ((n <? 32) || (n =? 127))%N then
    String backslash (String "x" (String (hex_digit (n / 16)) (String (hex_digit (n mod 16)) "")))
  else String c "".

Definition repr (s : string) : string :=
  let cs := list_ascii_of_string s in
  let quote :=
    if existsb (Ascii.eqb single_quote) cs && negb (existsb (Ascii.eqb double_quote) cs)
    then double_quote else single_quote in
  String quote
    (fold_right (fun c r => repr_char quote c ++ r) (String quote "") cs).

(** [str(n)] for an integer. *)
Definition str (n : Z) : string := NilZero.string_of_int (Z.to_int n).

(** The texts of the two [ValueError]s of [int]; the first shows at most
    200 characters of the [repr] of the text. *)
Definition invalid_literal (s : string) : string :=
  "invalid literal for int() with base 10: " ++ substring 0 200 (repr s).

Definition exceeds_limit (max_str_digits n : nat) : string :=
  "Exceeds the limit (" ++ str (Z.of_nat max_str_digits)
  ++ " digits) for integer string conversion: value has " ++ str (Z.of_nat n)
  ++ " digits; use sys.set_int_max_str_digits() to increase the limit".

(** Up to this many digits the interpreter applies no limit
    ([sys.int_info.str_digits_check_threshold]). *)
Definition str_digits_check_threshold : nat := 640.

(** [int(s)] under the interpreter's limit [max_str_digits]
    ([sys.get_int_max_str_digits()]: 4300 unless configured otherwise, 0
    for no limit): the integer, or [ValueError].  The limit is checked on
    the scanned run, before the rest of the text is looked at. *)
Definition int (max_str_digits : nat) (s : string) : io Z :=
  match scanned_digits s with
  | Some n =>
      if ((str_digits_check_threshold <? n) && (0 <? max_str_digits)
          && (max_str_digits <? n))%nat
      then raise (ValueError (exceeds_limit max_str_digits n))
      else
        match parse_int s with
        | Some (v, _) => ret v
        | None => raise (ValueError (invalid_literal s))
        end
  | None => raise (ValueError (invalid_literal s))
  end.

(** [template % args] for templates whose only conversions are [%s]; the
    call sites of the source pass exactly as many arguments as the template
    has conversions. *)
Fixpoint percent_format (template : string) (args : list string) : string :=
  match template with
  | String "%" (String "s" rest) =>
      match args with
      | a :: args' => a ++ percent_format rest args'
      | [] => String "%" (String "s" (percent_format rest []))
      end
  | String c rest => String c (percent_format rest args)
  | EmptyString => EmptyString
  end.

(** [os.environ.get(key, default)] *)
Definition environ_get (environ : gmap string string) (key default : string) : string :=
  match environ !! key with
  | Some v => v
  | None => default
  end.

End Py.

(* ===================================================================== *)
(** ** The [logging] configuration of the module *)
(* ===================================================================== *)

Module Logging.
Import Py.

Definition DEBUG : Z := 10.
Definition INFO : Z := 20.
Definition WARNING : Z := 30.
Definition ERROR : Z := 40.

(** What [logging.basicConfig] leaves behind: the root level and the stream
    of the one [StreamHandler] it installs. *)
Record config : Type := mkConfig {
  root_level : Z;
  handler_stream : stream
}.

(** [logging.basicConfig(level=..., stream=...)]: a [StreamHandler] built
    without a stream writes to [sys.stderr]. *)
Definition basicConfig (level : Z) (stream_arg : option stream) : config :=
  {| root_level := level;
     handler_stream := match stream_arg with Some s => s | None => stderr end |}.

(** [logging.getLogger(name).log(level, msg, *args, exc_info=...)]: the
    logger has no level of its own, so the root level decides; the record
    goes to the root handler. *)
Definition log (cfg : config) (logger_name : string) (level : Z)
  (template : string) (arguments : list string) (exc : option exn) : io unit :=
  if root_level cfg <=? level
  then perform (Write (handler_stream cfg)
                  (Record_ (mkLogRecord level logger_name template arguments exc)))
  else ret tt.

(** [LogRecord.getMessage()] *)
Definition getMessage (r : LogRecord) : string :=
  match args r with
  | [] => msg r
  | _ => percent_format (msg r) (args r)
  end.

End Logging.

(* ===================================================================== *)
(** ** [server.py] *)
(* ===================================================================== *)

Module Server.
Import Py.

(** [logging.basicConfig(level=logging.INFO)] *)
Definition logging_config : Logging.config :=
  Logging.basicConfig Logging.INFO None.

(** [logger = logging.getLogger(__name__)], the module being run as a script. *)
Definition logger_name : string := "__main__".

Definition logger_info (template : string) (arguments : list string) : io unit :=
  Logging.log logging_config logger_name Logging.INFO template arguments None.

Definition logger_error (template : string) (arguments : list string)
  (exc : option exn) : io unit :=
  Logging.log logging_config logger_name Logging.ERROR template arguments exc.

(** *** Schemas (pydantic models) *)

Module HealthCheckResult.
Record t : Type := mk { status : string }.
(** [HealthCheckResult(status=s)]: the field is [Literal["ok"]], so the
    constructor validates the value. *)
Definition new (s : string) : io t :=
  if String.eqb s "ok" then ret (mk s)
  else raise (ValidationError "status: Input should be 'ok'").
End HealthCheckResult.

Module EchoParams.
Record t : Type := mk { text : string }.
End EchoParams.

Module EchoResult.
Record t : Type := mk { text : string }.
(** [EchoResult(text=s)]: any string is accepted. *)
Definition new (s : string) : io t := ret (mk s).
End EchoResult.

Module SumParams.
Record t : Type := mk { a : float; b : float }.
End SumParams.

Module SumResult.
Record t : Type := mk { result : float }.
(** [SumResult(result=x)]: any float is accepted, NaN and infinities too. *)
Definition new (x : float) : io t := ret (mk x).
End SumResult.

(** *** Tools *)

Definition health_check : io HealthCheckResult.t :=
  HealthCheckResult.new "ok".

Definition echo_text (params : EchoParams.t) : io EchoResult.t :=
  EchoResult.new (EchoParams.text params).

(** What happens while the guarded block of [compute_sum] runs.  The block as
    written is two synchronous statements; the last case is what the
    handlers of [compute_sum] provide for. *)
Inductive scenario : Type :=
| Undisturbed                      (* the block runs to its [return] *)
| DeadlineElapsed                  (* the guard's deadline passes meanwhile *)
| Failure (exc : exn).             (* [exc] is raised inside the block *)

(** The exception [asyncio.timeout] raises on leaving a block it has
    interrupted: a [TimeoutError] replacing the cancellation. *)
Definition guard_timeout : exn :=
  set_context CancelledError (TimeoutError "").

(** [async with asyncio.timeout(delay): block].  The guard acts by
    cancelling the task, and a cancellation is delivered at an [await]
    only: a block that [awaits] is interrupted when the deadline passes,
    a block without suspension point runs to its end whatever the clock
    says. *)
Definition asyncio_timeout {A} (delay : Z) (sc : scenario) (awaits : bool)
  (block : io A) : io A :=
  match sc with
  | Undisturbed => block
  | DeadlineElapsed => if awaits then raise guard_timeout else block
  | Failure exc => raise exc
  end.

(** The guarded block holds an addition and a constructor call, no [await]. *)
Definition compute_sum (sc : scenario) (params : SumParams.t) : io SumResult.t :=
  try_except
    (asyncio_timeout 5 sc false
       (let result := (SumParams.a params + SumParams.b params)%float in
        SumResult.new result))
    [ ("TimeoutError",
       fun exc =>
         logger_error "compute_sum timed out" [] (Some exc);;
         raise (RuntimeError "timeout: operation exceeded 5 seconds"));
      ("Exception",
       fun exc =>
         logger_error "compute_sum encountered an unexpected error" [] (Some exc);;
         raise (RuntimeError "internal_error: failed to compute sum")) ].

(** *** The server object

    [mcp = FastMCP("mcp-specialist-python")], of [mcp.server.fastmcp]. *)

(** The methods of [FastMCP] that run a transport: [run], which takes the
    transport as an argument (stdio when called without), and one
    coroutine per transport.  The class has no method or other attribute
    called [run_http]. *)
Definition FastMCP_run_methods : list string :=
  ["run"; "run_stdio_async"; "run_sse_async"; "run_streamable_http_async"].

(** [getattr(mcp, name)], as evaluated first in a call [mcp.name(...)],
    for the name of a way to run the server: a method above is found, any
    other name raises [AttributeError]. *)
Definition mcp_getattr (name : string) : io unit :=
  if existsb (String.eqb name) FastMCP_run_methods then ret tt
  else raise (AttributeError ("'FastMCP' object has no attribute '" ++ name ++ "'")).

(** *** Entry point

    [max_str_digits] is the interpreter's limit on the digits [int] reads
    ([sys.get_int_max_str_digits()]), fixed before the script runs. *)

Definition main (max_str_digits : nat) (environ : gmap string string) : io unit :=
  let transport := lower (environ_get environ "MCP_TRANSPORT" "stdio") in
  if String.eqb transport "stdio" then
    logger_info "Starting MCP server using stdio transport" [];;
    mcp_getattr "run";;
    perform Run
  else if String.eqb transport "http" then
    port ← int max_str_digits (environ_get environ "MCP_HTTP_PORT" "3333");
    let host := environ_get environ "MCP_HTTP_HOST" "127.0.0.1" in
    logger_info "Starting MCP server on http://%s:%s/mcp" [host; str port];;
    mcp_getattr "run_http";;
    perform (RunHttp host port)
  else
    logger_error "Unknown MCP_TRANSPORT value: %s" [transport] None;;
    raise (SystemExit "Invalid MCP_TRANSPORT; expected 'stdio' or 'http'").

(** [if __name__ == "__main__": main()], seen from outside the process: the
    events, then the exit status.  An uncaught [SystemExit] carrying a string
    has it printed on standard error and gives status 1; any other uncaught
    exception has its traceback printed there and gives status 1 as well. *)
Definition script (max_str_digits : nat) (environ : gmap string string)
  : list event * Z :=
  match main max_str_digits environ with
  | (evs, Return _) => (evs, 0)
  | (evs, Raise e) =>
      if isinstance e "SystemExit"
      then ((evs ++ [Write stderr (Text (exn_message e))])%list, 1)
      else ((evs ++ [Write stderr (Traceback e)])%list, 1)
  end.

(** *** A serving session *)

(** A tool invocation the dispatcher makes once a transport runs. *)
Inductive tool_call : Type :=
| Call_health_check
| Call_echo_text (params : EchoParams.t)
| Call_compute_sum (sc : scenario) (params : SumParams.t).

(** The events the invoked handler performs. *)
Definition invoke (c : tool_call) : list event :=
  match c with
  | Call_health_check => events health_check
  | Call_echo_text params => events (echo_text params)
  | Call_compute_sum sc params => events (compute_sum sc params)
  end.

(** Everything this module does in one process: the entry point, then, if it
    handed over to a transport, the handlers of the calls dispatched to it. *)
Definition session (max_str_digits : nat) (environ : gmap string string)
  (calls : list tool_call) : list event :=
  match main max_str_digits environ with
  | (evs, Return _) => (evs ++ flat_map invoke calls)%list
  | (evs, Raise _) => fst (script max_str_digits environ)
  end.

(** An event that puts something on standard output. *)
Definition writes_stdout (ev : event) : bool :=
  match ev with
  | Write stdout _ => true
  | _ => false
  end.

(** A transport was started. *)
Definition starts_transport (ev : event) : bool :=
  match ev with
  | Run | RunHttp _ _ => true
  | Write _ _ => false
  end.

End Server.

(* ===================================================================== *)
(** ** Notions used to state the properties *)
(* ===================================================================== *)

Import Py Server.

(** The computation ends by raising an exception of class [kind] whose
    text is [message]. *)
Definition reports {A} (m : io A) (kind message : string) : Prop :=
  exists e, result_of m = Raise e /\ exn_class e = kind /\ exn_message e = message.

(** The record [logger.info(template, *arguments)] puts on standard error. *)
Definition info_line (template : string) (arguments : list string) : event :=
  Write stderr
    (Record_ (mkLogRecord Logging.INFO logger_name template arguments None)).

(** The record [logger.error(template, *arguments, exc_info=exc)] puts on
    standard error. *)
Definition error_line (template : string) (arguments : list string)
  (exc : option exn) : event :=
  Write stderr
    (Record_ (mkLogRecord Logging.ERROR logger_name template arguments exc)).

(** What [main] does when it selects the stdio transport. *)
Definition stdio_startup : io unit :=
  ([info_line "Starting MCP server using stdio transport" []; Run], Return tt).

(** What [main] does when it selects the HTTP transport on [host]:[port]:
    the announcement, then the failed look-up of [run_http]. *)
Definition http_attempt (host : string) (port : Z) : io unit :=
  ([info_line "Starting MCP server on http://%s:%s/mcp" [host; str port]],
   Raise (AttributeError "'FastMCP' object has no attribute 'run_http'")).

(** What [main] does on a transport name it does not know. *)
Definition configuration_error (transport : string) : io unit :=
  ([error_line "Unknown MCP_TRANSPORT value: %s" [transport] None],
   Raise (SystemExit "Invalid MCP_TRANSPORT; expected 'stdio' or 'http'")).

(** The exception that leaves the guarded block of [compute_sum], if any. *)
Definition raised_in_block (sc : scenario) : option exn :=
  match sc with
  | Undisturbed | DeadlineElapsed => None
  | Failure exc => Some exc
  end.

(** What the [except asyncio.TimeoutError] clause of [compute_sum] does with
    the exception it caught. *)
Definition timeout_report (exc : exn) : io SumResult.t :=
  ([error_line "compute_sum timed out" [] (Some exc)],
   Raise (set_context exc (RuntimeError "timeout: operation exceeded 5 seconds"))).

(** What the [except Exception] clause of [compute_sum] does with the
    exception it caught. *)
Definition internal_error_report (exc : exn) : io SumResult.t :=
  ([error_line "compute_sum encountered an unexpected error" [] (Some exc)],
   Raise (set_context exc (RuntimeError "internal_error: failed to compute sum"))).

(** The exception a clause of [compute_sum] catches in a tool call, if any. *)
Definition caught (c : tool_call) : option exn :=
  match c with
  | Call_compute_sum sc _ =>
      match raised_in_block sc with
      | Some exc =>
          if isinstance exc "TimeoutError" || isinstance exc "Exception"
          then Some exc else None
      | None => None
      end
  | Call_health_check | Call_echo_text _ => None
  end.

(** The record the clause that catches [exc] logs: its text tells the
    clause, its [exc_info] is [exc] itself. *)
Definition caught_record (exc : exn) : event :=
  error_line
    (if isinstance exc "TimeoutError" then "compute_sum timed out"
     else "compute_sum encountered an unexpected error")
    [] (Some exc).

(** A [TimeoutError] that is not the builtin one: the class of that name
    of [multiprocessing]. *)
Definition multiprocessing_TimeoutError (msg : string) : exn :=
  Exn ("multiprocessing.context.TimeoutError"
       :: "multiprocessing.context.ProcessError" :: Exception_mro) msg None.

(** The text holds ASCII characters only. *)
Definition ascii_text (s : string) : bool :=
  forallb (fun c => (N_of_ascii c <? 128)%N) (list_ascii_of_string s).

(** An ASCII letter. *)
Definition is_letter (c : ascii) : bool :=
  let n := N_of_ascii c in
  (((65 <=? n) && (n <=? 90)) || ((97 <=? n) && (n <=? 122)))%N.

(** The value of the decimal digits [d] read after a prefix of value [acc]. *)
Fixpoint uint_acc (d : Decimal.uint) (acc : Z) : Z :=
  match d with
  | Decimal.Nil => acc
  | Decimal.D0 l => uint_acc l (10 * acc + 0)
  | Decimal.D1 l => uint_acc l (10 * acc + 1)
  | Decimal.D2 l => uint_acc l (10 * acc + 2)
  | Decimal.D3 l => uint_acc l (10 * acc + 3)
  | Decimal.D4 l => uint_acc l (10 * acc + 4)
  | Decimal.D5 l => uint_acc l (10 * acc + 5)
  | Decimal.D6 l => uint_acc l (10 * acc + 6)
  | Decimal.D7 l => uint_acc l (10 * acc + 7)
  | Decimal.D8 l => uint_acc l (10 * acc + 8)
  | Decimal.D9 l => uint_acc l (10 * acc + 9)
  end.

(* ===================================================================== *)
(** ** Properties *)
(* ===================================================================== *)

(** *** The entry point, branch by branch *)

Lemma main_stdio_branch (limit : nat) (environ : gmap string string) :
  lower (environ_get environ "MCP_TRANSPORT" "stdio") = "stdio" ->
  main limit environ = stdio_startup.
Proof. intros H. unfold main. rewrite H. reflexivity. Qed.

Lemma main_http_branch (limit : nat) (environ : gmap string string) (port : Z) :
  lower (environ_get environ "MCP_TRANSPORT" "stdio") = "http" ->
  int limit (environ_get environ "MCP_HTTP_PORT" "3333") = ret port ->
  main limit environ =
    http_attempt (environ_get environ "MCP_HTTP_HOST" "127.0.0.1") port.
Proof. intros H Hport. unfold main. rewrite H, Hport. reflexivity. Qed.

Lemma main_http_branch_raises (limit : nat) (environ : gmap string string)
  (e : exn) :
  lower (environ_get environ "MCP_TRANSPORT" "stdio") = "http" ->
  int limit (environ_get environ "MCP_HTTP_PORT" "3333") = raise e ->
  main limit environ = raise e.
Proof. intros H Hport. unfold main. rewrite H, Hport. reflexivity. Qed.

Lemma main_else_branch (limit : nat) (environ : gmap string string) :
  lower (environ_get environ "MCP_TRANSPORT" "stdio") <> "stdio" ->
  lower (environ_get environ "MCP_TRANSPORT" "stdio") <> "http" ->
  main limit environ =
    configuration_error (lower (environ_get environ "MCP_TRANSPORT" "stdio")).
Proof.
  intros H1 H2. unfold main.
  apply String.eqb_neq in H1, H2. rewrite H1, H2. reflexivity.
Qed.

(** *** Facts about the runtime pieces *)

Lemma lower_ascii_idempotent (c : ascii) :
  lower_ascii (lower_ascii c) = lower_ascii c.
Proof. destruct c as [[] [] [] [] [] [] [] []]; reflexivity. Qed.

Lemma lower_idempotent (s : string) : lower (lower s) = lower s.
Proof.
  induction s as [|c s IH]; simpl; [reflexivity|].
  now rewrite lower_ascii_idempotent, IH.
Qed.

Lemma environ_get_set (environ : gmap string string) (k v d : string) :
  environ !! k = Some v -> environ_get environ k d = v.
Proof. intros H. unfold environ_get. now rewrite H. Qed.

Lemma environ_get_unset (environ : gmap string string) (k d : string) :
  environ !! k = None -> environ_get environ k d = d.
Proof. intros H. unfold environ_get. now rewrite H. Qed.

Lemma environ_get_insert_ne (environ : gmap string string) (k k' v d : string) :
  k <> k' -> environ_get (<[k := v]> environ) k' d = environ_get environ k' d.
Proof. intros H. unfold environ_get. now rewrite lookup_insert_ne. Qed.

Lemma environ_get_insert_eq (environ : gmap string string) (k v d : string) :
  environ_get (<[k := v]> environ) k d = v.
Proof. unfold environ_get. now rewrite lookup_insert_eq. Qed.

(** [int] performs no event, and what it raises is a [ValueError]. *)
Lemma int_cases (limit : nat) (s : string) :
  (exists v, int limit s = ret v) \/
  (exists msg, int limit s = raise (ValueError msg)).
Proof.
  unfold int. destruct (scanned_digits s) as [n|].
  - destruct (_ && _).
    + right. now eexists.
    + destruct (parse_int s) as [[v k]|].
      * left. now exists v.
      * right. now eexists.
  - right. now eexists.
Qed.

(** Every record the module logs goes to standard error. *)
Lemma log_events (level : Z) (template : string) (arguments : list string)
  (exc : option exn) :
  Forall (fun ev => writes_stdout ev = false /\ starts_transport ev = false)
    (events (Logging.log logging_config logger_name level template arguments exc)).
Proof.
  unfold Logging.log. destruct (_ <=? _); cbn; repeat constructor.
Qed.

(** *** [compute_sum], case by case *)

Lemma compute_sum_undisturbed (params : SumParams.t) :
  compute_sum Undisturbed params =
    ret (SumResult.mk (SumParams.a params + SumParams.b params)%float).
Proof. reflexivity. Qed.

(** When the deadline passes the block of [compute_sum], which has no
    suspension point, runs to its end all the same. *)
Lemma compute_sum_deadline (params : SumParams.t) :
  compute_sum DeadlineElapsed params = compute_sum Undisturbed params.
Proof. reflexivity. Qed.

(** The guarded block ends by raising what [raised_in_block] says. *)
Lemma block_raises {A} (sc : scenario) (exc : exn) (awaits : bool) (block : io A) :
  raised_in_block sc = Some exc -> asyncio_timeout 5 sc awaits block = raise exc.
Proof. destruct sc; intros H; inversion H; reflexivity. Qed.

(** Nothing leaves the block: [compute_sum] returns the sum. *)
Lemma block_returns (sc : scenario) (params : SumParams.t) :
  raised_in_block sc = None ->
  compute_sum sc params =
    ret (SumResult.mk (SumParams.a params + SumParams.b params)%float).
Proof. destruct sc; intros H; inversion H; reflexivity. Qed.

(** Run the [try] statement of [compute_sum] on a block known to raise, up
    to the tests of the [except] clauses. *)
Ltac enter_handlers Hblock :=
  unfold compute_sum; rewrite (block_raises _ _ _ _ Hblock);
  unfold try_except, raise; cbn [select_clause].

Section Handlers.

Variables (sc : scenario) (exc : exn) (params : SumParams.t).
Hypothesis Hblock : raised_in_block sc = Some exc.

Lemma except_timeout_clause :
  isinstance exc "TimeoutError" = true ->
  compute_sum sc params = timeout_report exc.
Proof. intros Hto. enter_handlers Hblock. now rewrite Hto. Qed.

Lemma except_exception_clause :
  isinstance exc "TimeoutError" = false ->
  isinstance exc "Exception" = true ->
  compute_sum sc params = internal_error_report exc.
Proof. intros Hto Hex. enter_handlers Hblock. now rewrite Hto, Hex. Qed.

Lemma except_no_clause :
  isinstance exc "TimeoutError" = false ->
  isinstance exc "Exception" = false ->
  compute_sum sc params = raise exc.
Proof. intros Hto Hex. enter_handlers Hblock. now rewrite Hto, Hex. Qed.

End Handlers.

(** Whatever happens in the block, [compute_sum] writes to standard error
    only and starts nothing. *)
Lemma compute_sum_events (sc : scenario) (params : SumParams.t) :
  Forall (fun ev => writes_stdout ev = false /\ starts_transport ev = false)
    (events (compute_sum sc params)).
Proof.
  destruct (raised_in_block sc) as [exc|] eqn:Hsc.
  - destruct (isinstance exc "TimeoutError") eqn:Hto.
    + rewrite (except_timeout_clause _ _ params Hsc Hto). repeat constructor.
    + destruct (isinstance exc "Exception") eqn:Hex.
      * rewrite (except_exception_clause _ _ params Hsc Hto Hex). repeat constructor.
      * rewrite (except_no_clause _ _ params Hsc Hto Hex). constructor.
  - rewrite (block_returns sc params Hsc). constructor.
Qed.

(** *** Binary64 addition and NaN *)

Lemma add_nan_l (x : float) : (nan + x)%float = nan.
Proof. apply Prim2SF_inj. rewrite add_spec. reflexivity. Qed.

Lemma add_nan_r (x : float) : (x + nan)%float = nan.
Proof.
  apply Prim2SF_inj. rewrite add_spec.
  change (Prim2SF nan) with S754_nan. destruct (Prim2SF x); reflexivity.
Qed.

(* ===================================================================== *)
(** ** The tools *)
(* ===================================================================== *)

(** C1.  For all doubles [a] and [b] (finite or not), [compute_sum] performs
    no event and returns a [SumResult] whose [result] is the binary64 sum
    of [a] and [b]: its IEEE 754 value is [SF64add] of the values of the
    inputs.  [2.5 + 3.5] gives [6.0] and [-1 + 1] gives [0].  Nothing is
    guarded: NaN operands give NaN, opposite infinities give NaN, and the
    sum of two finite doubles may overflow to infinity. *)
Theorem compute_sum_ieee754 :
  (forall a b : float,
      exists r : float,
        compute_sum Undisturbed (SumParams.mk a b) = ([], Return (SumResult.mk r))
        /\ r = (a + b)%float
        /\ Prim2SF r = SF64add (Prim2SF a) (Prim2SF b))
  /\ compute_sum Undisturbed (SumParams.mk 2.5 3.5) = ([], Return (SumResult.mk 6))
  /\ compute_sum Undisturbed (SumParams.mk (-1) 1) = ([], Return (SumResult.mk 0))
  /\ (forall x : float,
        compute_sum Undisturbed (SumParams.mk nan x) = ([], Return (SumResult.mk nan))
        /\ compute_sum Undisturbed (SumParams.mk x nan) = ([], Return (SumResult.mk nan)))
  /\ compute_sum Undisturbed (SumParams.mk infinity neg_infinity)
       = ([], Return (SumResult.mk nan))
  /\ compute_sum Undisturbed
       (SumParams.mk 0x1.fffffffffffffp1023 0x1.fffffffffffffp1023)
       = ([], Return (SumResult.mk infinity)).
Proof.
  repeat split; try reflexivity.
  - intros a b. exists (a + b)%float.
    rewrite compute_sum_undisturbed. repeat split. apply add_spec.
  - rewrite compute_sum_undisturbed. cbn. now rewrite add_nan_l.
  - rewrite compute_sum_undisturbed. cbn. now rewrite add_nan_r.
Qed.

(** C2.  For every string [s], the empty one and those with control or
    non-ASCII characters included, [echo_text] performs no event, cannot
    fail, and returns a result whose [text] is [s] itself; echoing the
    echoed text changes nothing. *)
Theorem echo_text_identity (s : string) :
  echo_text (EchoParams.mk s) = ([], Return (EchoResult.mk s))
  /\ (forall r : EchoResult.t,
        result_of (echo_text (EchoParams.mk s)) = Return r ->
        EchoResult.text r = s
        /\ String.length (EchoResult.text r) = String.length s
        /\ echo_text (EchoParams.mk (EchoResult.text r)) = ([], Return r)).
Proof.
  split; [reflexivity|].
  intros r Hr. cbn in Hr. inversion Hr; subst r. repeat split.
Qed.

(** C6.  [health_check] takes no argument, performs no event, does not
    raise, and returns the fixed object whose [status] is ["ok"]; a
    [HealthCheckResult] can only ever be built with that value. *)
Theorem health_check_ok :
  health_check = ([], Return (HealthCheckResult.mk "ok"))
  /\ (forall (s : string) (evs : list event) (r : HealthCheckResult.t),
        HealthCheckResult.new s = (evs, Return r) ->
        HealthCheckResult.status r = "ok")
  /\ (forall s : string,
        s <> "ok" ->
        exists e, HealthCheckResult.new s = ([], Raise e)
                  /\ exn_class e = "ValidationError").
Proof.
  split; [reflexivity|]. split.
  - intros s evs r. unfold HealthCheckResult.new.
    destruct (String.eqb_spec s "ok") as [->|Hne]; cbn; intros H; inversion H.
    reflexivity.
  - intros s Hne. unfold HealthCheckResult.new.
    apply String.eqb_neq in Hne. rewrite Hne. eexists. split; reflexivity.
Qed.

(** C3, as the code has it.  When a [TimeoutError] leaves the guarded
    block, which is what the guard raises where it interrupts a block,
    [compute_sum] returns no result: it logs "compute_sum timed out" with
    the caught exception on standard error and raises a [RuntimeError] (not
    a [TimeoutError]) whose text is "timeout: operation exceeded 5 seconds";
    the caught exception survives only as the context of the new one. *)
Theorem compute_sum_timeout (sc : scenario) (exc : exn) (params : SumParams.t) :
  raised_in_block sc = Some exc ->
  isinstance exc "TimeoutError" = true ->
  compute_sum sc params = timeout_report exc
  /\ reports (compute_sum sc params) "RuntimeError"
       "timeout: operation exceeded 5 seconds"
  /\ (forall r, result_of (compute_sum sc params) <> Return r)
  /\ events (compute_sum sc params)
       = [error_line "compute_sum timed out" [] (Some exc)].
Proof.
  intros Hsc Hto. rewrite (except_timeout_clause _ _ params Hsc Hto).
  split; [reflexivity|]. split; [|split].
  - eexists. split; [reflexivity|]. split; reflexivity.
  - intros r. discriminate.
  - reflexivity.
Qed.

(** The guard's own [TimeoutError], raised in the block, is such a case. *)
Lemma compute_sum_timeout_witness :
  raised_in_block (Failure guard_timeout) = Some guard_timeout
  /\ isinstance guard_timeout "TimeoutError" = true
  /\ reports (compute_sum (Failure guard_timeout) (SumParams.mk 1 2)) "RuntimeError"
       "timeout: operation exceeded 5 seconds".
Proof.
  split; [reflexivity|]. split; [reflexivity|].
  apply (compute_sum_timeout (Failure guard_timeout) guard_timeout
           (SumParams.mk 1 2)); reflexivity.
Defined.

(** C3 as stated fails on two counts.  When the deadline of the guard
    passes while the block runs, nothing interrupts the block, which has no
    suspension point: [compute_sum] returns the sum and reports no failure.
    And when a [TimeoutError] does leave the block, the failure that
    reaches the caller is not of kind [TimeoutError], nor is it that
    exception passed on as it was. *)
Lemma compute_sum_timeout_kind_counterexample :
  compute_sum DeadlineElapsed (SumParams.mk 1 2) = ([], Return (SumResult.mk 3))
  /\ ~ reports (compute_sum DeadlineElapsed (SumParams.mk 1 2)) "TimeoutError"
        "timeout: operation exceeded 5 seconds"
  /\ ~ reports (compute_sum (Failure guard_timeout) (SumParams.mk 1 2))
        "TimeoutError" "timeout: operation exceeded 5 seconds"
  /\ (forall e,
        result_of (compute_sum (Failure guard_timeout) (SumParams.mk 1 2)) = Raise e ->
        isinstance e "TimeoutError" = false /\ e <> guard_timeout).
Proof.
  split; [reflexivity|]. split; [|split].
  - intros (e & He & _). discriminate He.
  - intros (e & He & Hk & _). cbn in He. inversion He; subst e. discriminate Hk.
  - intros e He. cbn in He. inversion He; subst e. split; [reflexivity|discriminate].
Qed.

(** The [except asyncio.TimeoutError] clause matches the builtin class, not
    a class that shares its name: the [TimeoutError] of [multiprocessing]
    is handled by the [except Exception] clause. *)
Lemma other_timeout_class (msg : string) (params : SumParams.t) :
  isinstance (multiprocessing_TimeoutError msg) "TimeoutError" = false
  /\ compute_sum (Failure (multiprocessing_TimeoutError msg)) params
     = internal_error_report (multiprocessing_TimeoutError msg).
Proof. split; reflexivity. Qed.

(** C4, as the code has it.  For every exception leaving the guarded block
    that is an [Exception] but not a [TimeoutError], [compute_sum] logs it
    on standard error and raises a [RuntimeError] (not an [InternalError])
    whose text is the fixed "internal_error: failed to compute sum": class
    and text do not depend on the original failure, which survives only as
    the context of the new exception. *)
Theorem compute_sum_internal_error (sc : scenario) (exc : exn) (params : SumParams.t) :
  raised_in_block sc = Some exc ->
  isinstance exc "Exception" = true ->
  isinstance exc "TimeoutError" = false ->
  compute_sum sc params = internal_error_report exc
  /\ reports (compute_sum sc params) "RuntimeError"
       "internal_error: failed to compute sum"
  /\ (forall e, result_of (compute_sum sc params) = Raise e ->
        exn_mro e = exn_mro (RuntimeError "")
        /\ exn_message e = "internal_error: failed to compute sum"
        /\ exn_context e = Some exc)
  /\ events (compute_sum sc params)
       = [error_line "compute_sum encountered an unexpected error" [] (Some exc)].
Proof.
  intros Hsc Hex Hto. rewrite (except_exception_clause _ _ params Hsc Hto Hex).
  split; [reflexivity|]. split; [|split].
  - eexists. split; [reflexivity|]. split; reflexivity.
  - intros e He. cbn in He. inversion He; subst e. repeat split.
  - reflexivity.
Qed.

Lemma compute_sum_internal_error_witness :
  isinstance (ValueError "secret") "Exception" = true
  /\ isinstance (ValueError "secret") "TimeoutError" = false
  /\ reports (compute_sum (Failure (ValueError "secret")) (SumParams.mk 1 2))
       "RuntimeError" "internal_error: failed to compute sum".
Proof.
  split; [reflexivity|]. split; [reflexivity|].
  apply (compute_sum_internal_error (Failure (ValueError "secret"))
           (ValueError "secret") (SumParams.mk 1 2)); reflexivity.
Defined.

(** C4 as stated fails on two counts: the failure that reaches the caller
    after a [ValueError] in the block is not of kind [InternalError]; and a
    failure that is not an [Exception], such as a cancellation, is not
    caught at all but leaves [compute_sum] as it is. *)
Lemma compute_sum_internal_error_counterexample :
  ~ reports (compute_sum (Failure (ValueError "secret")) (SumParams.mk 1 2))
      "InternalError" "internal_error: failed to compute sum"
  /\ isinstance CancelledError "TimeoutError" = false
  /\ compute_sum (Failure CancelledError) (SumParams.mk 1 2) = ([], Raise CancelledError).
Proof.
  split; [|split; reflexivity].
  intros (e & He & Hk & _). cbn in He. inversion He; subst e. discriminate Hk.
Qed.

(* ===================================================================== *)
(** ** The entry point *)
(* ===================================================================== *)

(** The four ways [main] ends, each with the condition that selects it. *)
Lemma main_by_condition (limit : nat) (environ : gmap string string) :
  (lower (environ_get environ "MCP_TRANSPORT" "stdio") = "stdio"
   /\ main limit environ = stdio_startup)
  \/ (lower (environ_get environ "MCP_TRANSPORT" "stdio") = "http"
      /\ exists port,
           int limit (environ_get environ "MCP_HTTP_PORT" "3333") = ret port
           /\ main limit environ =
                http_attempt (environ_get environ "MCP_HTTP_HOST" "127.0.0.1") port)
  \/ (lower (environ_get environ "MCP_TRANSPORT" "stdio") = "http"
      /\ exists msg,
           int limit (environ_get environ "MCP_HTTP_PORT" "3333")
           = raise (ValueError msg)
           /\ main limit environ = raise (ValueError msg))
  \/ (lower (environ_get environ "MCP_TRANSPORT" "stdio") <> "stdio"
      /\ lower (environ_get environ "MCP_TRANSPORT" "stdio") <> "http"
      /\ main limit environ =
           configuration_error (lower (environ_get environ "MCP_TRANSPORT" "stdio"))).
Proof.
  set (t := lower (environ_get environ "MCP_TRANSPORT" "stdio")).
  destruct (String.eqb_spec t "stdio") as [Hs|Hs].
  - left. split; [exact Hs|now apply main_stdio_branch].
  - destruct (String.eqb_spec t "http") as [Hh|Hh].
    + destruct (int_cases limit (environ_get environ "MCP_HTTP_PORT" "3333"))
        as [[port Hp]|[msg He]].
      * right. left. split; [exact Hh|]. exists port.
        split; [exact Hp|now apply main_http_branch].
      * right. right. left. split; [exact Hh|]. exists msg.
        split; [exact He|now apply main_http_branch_raises].
    + right. right. right. repeat split; try assumption.
      now apply main_else_branch.
Qed.

(** Neither the entry point nor the interpreter's handling of what it
    raises puts anything on standard output. *)
Lemma script_events (limit : nat) (environ : gmap string string) :
  Forall (fun ev => writes_stdout ev = false) (fst (script limit environ)).
Proof.
  unfold script.
  destruct (main_by_condition limit environ)
    as [(_ & H)|[(_ & port & _ & H)|[(_ & msg & _ & H)|(_ & _ & H)]]];
    rewrite H; cbn; repeat constructor.
Qed.

Lemma invoke_events (c : tool_call) :
  Forall (fun ev => writes_stdout ev = false /\ starts_transport ev = false)
    (invoke c).
Proof.
  destruct c as [|params|sc params]; cbn [invoke].
  - constructor.
  - constructor.
  - apply compute_sum_events.
Qed.

Lemma session_events (limit : nat) (environ : gmap string string)
  (calls : list tool_call) :
  Forall (fun ev => writes_stdout ev = false) (session limit environ calls).
Proof.
  pose proof (script_events limit environ) as Hs.
  unfold session, script in *.
  destruct (main limit environ) as [evs [[]|e]]; [|exact Hs].
  cbn in Hs. apply Forall_app. split; [exact Hs|].
  induction calls as [|c calls IH]; cbn [flat_map]; [constructor|].
  apply Forall_app. split; [|exact IH].
  eapply Forall_impl; [apply invoke_events|]. now intros ev [H _].
Qed.

(** C5, as the code has it.  For every value of [MCP_TRANSPORT] whose
    lower-cased form is neither "stdio" nor "http", [main] logs the unknown
    (lower-cased) value on standard error and raises [SystemExit] with the
    invalid-configuration text: the process prints that text on standard
    error and exits with status 1, no transport was started, and no tool
    call is ever served.  This holds under every digit limit of the
    interpreter. *)
Theorem main_unknown_transport (limit : nat) (environ : gmap string string)
  (v : string) :
  environ !! "MCP_TRANSPORT" = Some v ->
  lower v <> "stdio" ->
  lower v <> "http" ->
  main limit environ = configuration_error (lower v)
  /\ script limit environ =
       ([error_line "Unknown MCP_TRANSPORT value: %s" [lower v] None;
         Write stderr (Text "Invalid MCP_TRANSPORT; expected 'stdio' or 'http'")],
        1)
  /\ snd (script limit environ) <> 0
  /\ Forall (fun ev => starts_transport ev = false) (fst (script limit environ))
  /\ (forall calls, session limit environ calls = fst (script limit environ)).
Proof.
  intros Hv H1 H2.
  assert (Hm : main limit environ = configuration_error (lower v)).
  { rewrite <- (environ_get_set environ _ v "stdio" Hv) in *.
    now apply main_else_branch. }
  unfold session, script. rewrite Hm. cbn.
  repeat split; try discriminate. repeat constructor.
Qed.

Lemma main_unknown_transport_witness :
  lower "carrier-pigeon" <> "stdio"
  /\ lower "carrier-pigeon" <> "http"
  /\ snd (script 4300 {[ "MCP_TRANSPORT" := "carrier-pigeon" ]}) = 1.
Proof.
  split; [discriminate|]. split; [discriminate|].
  pose proof (main_unknown_transport 4300 {[ "MCP_TRANSPORT" := "carrier-pigeon" ]}
                "carrier-pigeon" eq_refl) as H.
  destruct H as (_ & H & _); [discriminate|discriminate|].
  rewrite H. reflexivity.
Defined.

(** C5 as stated fails: "STDIO" is a value other than "stdio" and "http",
    and with it the entry point starts the stdio transport and the process
    ends with status 0. *)
Lemma main_unknown_transport_counterexample :
  "STDIO" <> "stdio"
  /\ "STDIO" <> "http"
  /\ main 4300 {[ "MCP_TRANSPORT" := "STDIO" ]} = stdio_startup
  /\ script 4300 {[ "MCP_TRANSPORT" := "STDIO" ]} = (fst stdio_startup, 0)
  /\ Exists (fun ev => starts_transport ev = true)
       (fst (script 4300 {[ "MCP_TRANSPORT" := "STDIO" ]})).
Proof.
  split; [discriminate|]. split; [discriminate|]. split; [reflexivity|].
  split; [reflexivity|].
  apply Exists_exists. exists Run. split; [right; left; reflexivity|reflexivity].
Qed.

(** C7, what the code does.  With [MCP_TRANSPORT] unset, [main] announces
    and starts the stdio transport.  With [MCP_TRANSPORT] set to "http" it
    reads the host from [MCP_HTTP_HOST] (default "127.0.0.1") and the port
    from [MCP_HTTP_PORT] (default 3333) and announces the endpoint
    [http://host:port/mcp] on standard error, but then fails: the server
    object has no [run_http], so the call raises [AttributeError], no
    transport is started and the process ends on the traceback with
    status 1. *)
Theorem transport_selection (limit : nat) (environ : gmap string string) :
  (environ !! "MCP_TRANSPORT" = None -> main limit environ = stdio_startup)
  /\ (environ !! "MCP_TRANSPORT" = Some "http" ->
      forall port : Z,
        int limit (environ_get environ "MCP_HTTP_PORT" "3333") = ret port ->
        main limit environ =
          ([info_line "Starting MCP server on http://%s:%s/mcp"
              [environ_get environ "MCP_HTTP_HOST" "127.0.0.1"; str port]],
           Raise (AttributeError "'FastMCP' object has no attribute 'run_http'"))
        /\ snd (script limit environ) = 1
        /\ Forall (fun ev => starts_transport ev = false)
             (fst (script limit environ)))
  /\ (environ !! "MCP_HTTP_HOST" = None ->
      environ_get environ "MCP_HTTP_HOST" "127.0.0.1" = "127.0.0.1")
  /\ (environ !! "MCP_HTTP_PORT" = None ->
      int limit (environ_get environ "MCP_HTTP_PORT" "3333") = ret 3333)
  /\ (forall (host : string) (port : Z),
        Logging.getMessage
          (mkLogRecord Logging.INFO logger_name
             "Starting MCP server on http://%s:%s/mcp" [host; str port] None)
        = "Starting MCP server on http://" ++ host ++ ":" ++ str port ++ "/mcp").
Proof.
  split; [|split; [|split; [|split]]].
  - intros H. apply main_stdio_branch. now rewrite (environ_get_unset _ _ _ H).
  - intros H port Hport.
    assert (Hm : main limit environ =
                   http_attempt (environ_get environ "MCP_HTTP_HOST" "127.0.0.1") port).
    { apply main_http_branch; [|exact Hport].
      now rewrite (environ_get_set _ _ _ _ H). }
    unfold script. rewrite Hm. cbn. repeat split. repeat constructor.
  - apply environ_get_unset.
  - intros H. now rewrite (environ_get_unset _ _ _ H).
  - intros host port. cbn. reflexivity.
Qed.

(** The failing input of C7: with "http" and nothing else set, the
    announcement is all that happens before the [AttributeError]. *)
Lemma transport_selection_witness :
  main 4300 ∅ = stdio_startup
  /\ main 4300 {[ "MCP_TRANSPORT" := "http" ]} = http_attempt "127.0.0.1" 3333
  /\ script 4300 {[ "MCP_TRANSPORT" := "http" ]}
     = ([info_line "Starting MCP server on http://%s:%s/mcp" ["127.0.0.1"; "3333"];
         Write stderr
           (Traceback (AttributeError "'FastMCP' object has no attribute 'run_http'"))],
        1).
Proof.
  split; [|split].
  - apply (proj1 (transport_selection 4300 ∅)). reflexivity.
  - refine (proj1 (proj1 (proj2 (transport_selection 4300
                                   {[ "MCP_TRANSPORT" := "http" ]})) _ 3333 _));
      reflexivity.
  - reflexivity.
Defined.

(** C9, what the code does.  The value of [MCP_TRANSPORT] is lower-cased
    before it is compared: for every value equal to "stdio" or "http" up to
    ASCII case, [main] does exactly what it does for the lower-case
    spelling and never takes the invalid-configuration exit.  In the first
    case that is the start of the stdio transport; in the second it is the
    HTTP branch, which announces the endpoint and then fails on the
    missing [run_http] without starting a transport. *)
Theorem transport_name_case_insensitive (limit : nat)
  (environ : gmap string string) (v : string) :
  environ !! "MCP_TRANSPORT" = Some v ->
  lower v = "stdio" \/ lower v = "http" ->
  main limit environ = main limit (<["MCP_TRANSPORT" := lower v]> environ)
  /\ (lower v = "stdio" -> main limit environ = stdio_startup)
  /\ (lower v = "http" ->
      forall port : Z,
        int limit (environ_get environ "MCP_HTTP_PORT" "3333") = ret port ->
        main limit environ =
          http_attempt (environ_get environ "MCP_HTTP_HOST" "127.0.0.1") port)
  /\ (forall t, main limit environ <> configuration_error t)
  /\ (forall e, result_of (main limit environ) = Raise e ->
        isinstance e "SystemExit" = false).
Proof.
  intros Hv Hcase.
  pose proof (environ_get_set environ _ v "stdio" Hv) as Hget.
  assert (Hstdio : lower v = "stdio" -> main limit environ = stdio_startup).
  { intros H. apply main_stdio_branch. now rewrite Hget. }
  assert (Hhttp : lower v = "http" ->
            forall port : Z,
              int limit (environ_get environ "MCP_HTTP_PORT" "3333") = ret port ->
              main limit environ =
                http_attempt (environ_get environ "MCP_HTTP_HOST" "127.0.0.1") port).
  { intros H port Hport. apply main_http_branch; [now rewrite Hget|exact Hport]. }
  assert (Hsame : main limit environ
                  = main limit (<["MCP_TRANSPORT" := lower v]> environ)).
  { unfold main. rewrite Hget, environ_get_insert_eq, lower_idempotent.
    rewrite !environ_get_insert_ne by discriminate. reflexivity. }
  assert (Hexit : forall e, result_of (main limit environ) = Raise e ->
            isinstance e "SystemExit" = false).
  { intros e. destruct Hcase as [H|H].
    - rewrite (Hstdio H). discriminate.
    - destruct (int_cases limit (environ_get environ "MCP_HTTP_PORT" "3333"))
        as [[port Hp]|[msg He']].
      + rewrite (Hhttp H port Hp). cbn. intros He; inversion He; subst e.
        reflexivity.
      + rewrite (main_http_branch_raises limit environ (ValueError msg));
          [|now rewrite Hget|exact He'].
        cbn. intros He; inversion He; subst e. reflexivity. }
  repeat split; try assumption.
  intros t Ht. rewrite Ht in Hexit. specialize (Hexit _ eq_refl). discriminate Hexit.
Qed.

(** The failing input of C9: "Http" selects the HTTP branch, which fails. *)
Lemma transport_name_case_insensitive_witness :
  lower "STDIO" = "stdio"
  /\ main 4300 {[ "MCP_TRANSPORT" := "STDIO" ]} = stdio_startup
  /\ lower "Http" = "http"
  /\ main 4300 {[ "MCP_TRANSPORT" := "Http" ]} = http_attempt "127.0.0.1" 3333.
Proof.
  split; [reflexivity|]. split; [|split; [reflexivity|]].
  - refine (proj1 (proj2 (transport_name_case_insensitive 4300
                            {[ "MCP_TRANSPORT" := "STDIO" ]} "STDIO" _ _)) _);
      [reflexivity|left; reflexivity|reflexivity].
  - refine (proj1 (proj2 (proj2 (transport_name_case_insensitive 4300
                                   {[ "MCP_TRANSPORT" := "Http" ]} "Http" _ _)))
              _ 3333 _);
      [reflexivity|right; reflexivity|reflexivity|reflexivity].
Defined.

(** C10.  When [MCP_TRANSPORT] selects HTTP and [MCP_HTTP_PORT] holds an
    ASCII text that is no integer literal, the conversion raises a
    [ValueError] before [main] has logged or started anything; nothing
    handles it, so the process ends on the traceback with status 1.  This
    is not the invalid-configuration path: no "Unknown MCP_TRANSPORT"
    record is logged and the exception is not a [SystemExit]. *)
Theorem bad_http_port_unhandled (limit : nat) (environ : gmap string string)
  (t v : string) :
  environ !! "MCP_TRANSPORT" = Some t ->
  lower t = "http" ->
  environ !! "MCP_HTTP_PORT" = Some v ->
  ascii_text v = true ->
  parse_int v = None ->
  exists e : exn,
    int limit v = raise e
    /\ exn_class e = "ValueError"
    /\ isinstance e "SystemExit" = false
    /\ main limit environ = ([], Raise e)
    /\ script limit environ = ([Write stderr (Traceback e)], 1)
    /\ (forall t', main limit environ <> configuration_error t')
    /\ (forall calls,
          Forall (fun ev => starts_transport ev = false)
            (session limit environ calls)).
Proof.
  intros Ht Hl Hv _ Hp.
  destruct (int_cases limit v) as [[port Hport]|[msg He]].
  { exfalso. unfold int in Hport. rewrite Hp in Hport.
    destruct (scanned_digits v); [destruct (_ && _)|]; discriminate Hport. }
  exists (ValueError msg).
  assert (Hm : main limit environ = raise (ValueError msg)).
  { apply main_http_branch_raises.
    - now rewrite (environ_get_set _ _ _ _ Ht).
    - now rewrite (environ_get_set _ _ _ _ Hv). }
  unfold session, script. rewrite Hm. cbn.
  repeat split; try assumption; try discriminate. repeat constructor.
Qed.

Lemma bad_http_port_unhandled_witness :
  lower "http" = "http"
  /\ ascii_text "abc" = true
  /\ parse_int "abc" = None
  /\ exists e : exn,
       script 4300 {[ "MCP_TRANSPORT" := "http"; "MCP_HTTP_PORT" := "abc" ]}
         = ([Write stderr (Traceback e)], 1)
       /\ exn_class e = "ValueError".
Proof.
  split; [reflexivity|]. split; [reflexivity|]. split; [reflexivity|].
  destruct (bad_http_port_unhandled 4300
              {[ "MCP_TRANSPORT" := "http"; "MCP_HTTP_PORT" := "abc" ]}
              "http" "abc")
    as (e & _ & Hc & _ & _ & Hs & _); [reflexivity..|].
  exists e. split; [exact Hs|exact Hc].
Defined.

(* ===================================================================== *)
(** ** Standard output under the stdio transport *)
(* ===================================================================== *)

(** C8.  The logging configuration sends every record to standard error,
    and in every session (any environment, the stdio transport included,
    any sequence of tool calls, whatever happens inside [compute_sum])
    nothing this module does writes to standard output: each of its writes,
    log records and the interpreter's last words alike, is to standard
    error. *)
Theorem stdout_free_of_diagnostics (limit : nat) (environ : gmap string string)
  (calls : list tool_call) :
  Logging.handler_stream logging_config = stderr
  /\ Forall (fun ev => writes_stdout ev = false) (session limit environ calls)
  /\ (forall (s : stream) (o : output),
        In (Write s o) (session limit environ calls) -> s = stderr)
  /\ (lower (environ_get environ "MCP_TRANSPORT" "stdio") = "stdio" ->
      session limit environ calls
      = (fst stdio_startup ++ flat_map invoke calls)%list).
Proof.
  split; [reflexivity|]. split; [apply session_events|]. split.
  - intros s o Hin.
    pose proof (session_events limit environ calls) as Hall.
    rewrite Forall_forall in Hall.
    assert (Hw : writes_stdout (Write s o) = false).
    { apply Hall. now apply list_elem_of_In. }
    destruct s; [discriminate Hw|reflexivity].
  - intros H. unfold session. now rewrite (main_stdio_branch _ _ H).
Qed.

(* ===================================================================== *)
(** ** Further properties of [compute_sum] *)
(* ===================================================================== *)

(** *** Binary64 addition *)

Lemma SF64add_comm (x y : spec_float) : SF64add x y = SF64add y x.
Proof.
  unfold SF64add, SFadd.
  destruct x as [sx|sx| |sx mx ex], y as [sy|sy| |sy my ey]; try reflexivity;
    try (destruct sx, sy; reflexivity).
  rewrite (Z.min_comm ey ex). f_equal. apply Z.add_comm.
Qed.

Lemma float_add_comm (x y : float) : (x + y)%float = (y + x)%float.
Proof. apply Prim2SF_inj. rewrite !add_spec. apply SF64add_comm. Qed.

(** What [compute_sum] does when something leaves the block depends on the
    scenario only. *)
Lemma compute_sum_failure_params (sc : scenario) (exc : exn)
  (params params' : SumParams.t) :
  raised_in_block sc = Some exc ->
  compute_sum sc params = compute_sum sc params'.
Proof.
  intros Hsc. unfold compute_sum. now rewrite !(block_raises _ _ _ _ Hsc).
Qed.

(** X1.  [compute_sum] is symmetric in its two addends: swapping [a] and [b]
    changes neither the events nor the outcome, in any scenario (a primitive
    float has one NaN, so NaN results are compared as such). *)
Theorem compute_sum_symmetric (sc : scenario) (a b : float) :
  compute_sum sc (SumParams.mk a b) = compute_sum sc (SumParams.mk b a).
Proof.
  destruct (raised_in_block sc) as [exc|] eqn:Hsc.
  - exact (compute_sum_failure_params sc exc _ _ Hsc).
  - rewrite !(block_returns sc _ Hsc). cbn. now rewrite float_add_comm.
Qed.

(** X2.  No failure that is an [Exception] leaves [compute_sum] other than a
    [RuntimeError] carrying one of its two fixed texts, with the failure of
    the block as its context. *)
Theorem compute_sum_failures_sanitised (sc : scenario) (params : SumParams.t)
  (e : exn) :
  result_of (compute_sum sc params) = Raise e ->
  isinstance e "Exception" = true ->
  exn_mro e = ["RuntimeError"; "Exception"; "BaseException"; "object"]
  /\ (exn_message e = "timeout: operation exceeded 5 seconds"
      \/ exn_message e = "internal_error: failed to compute sum")
  /\ exists exc, raised_in_block sc = Some exc /\ exn_context e = Some exc.
Proof.
  intros He Hexc.
  destruct (raised_in_block sc) as [exc|] eqn:Hsc.
  - destruct (isinstance exc "TimeoutError") eqn:Hto.
    + rewrite (except_timeout_clause _ _ params Hsc Hto) in He.
      cbn in He. inversion He; subst e. repeat split; eauto.
    + destruct (isinstance exc "Exception") eqn:Hex.
      * rewrite (except_exception_clause _ _ params Hsc Hto Hex) in He.
        cbn in He. inversion He; subst e. repeat split; eauto.
      * rewrite (except_no_clause _ _ params Hsc Hto Hex) in He.
        cbn in He. inversion He; subst e. congruence.
  - rewrite (block_returns sc params Hsc) in He. discriminate He.
Qed.

Lemma compute_sum_failures_sanitised_witness :
  exists e : exn,
    result_of (compute_sum (Failure (ValueError "secret")) (SumParams.mk 1 2)) = Raise e
    /\ isinstance e "Exception" = true
    /\ exn_message e = "internal_error: failed to compute sum".
Proof.
  eexists. split; [reflexivity|]. split; [reflexivity|].
  destruct (compute_sum_failures_sanitised (Failure (ValueError "secret"))
              (SumParams.mk 1 2) _ eq_refl eq_refl) as (_ & [H|H] & _).
  - discriminate H.
  - exact H.
Defined.

(** X3.  A failure that is neither an [Exception] nor a [TimeoutError] (a
    cancellation, an interpreter exit) goes through [compute_sum] untouched:
    the same exception object leaves it, nothing is logged and nothing is
    wrapped around it. *)
Theorem compute_sum_lets_base_exceptions_through (exc : exn) (params : SumParams.t) :
  isinstance exc "Exception" = false ->
  isinstance exc "TimeoutError" = false ->
  compute_sum (Failure exc) params = ([], Raise exc).
Proof. intros Hex Hto. now apply except_no_clause. Qed.

Lemma compute_sum_lets_base_exceptions_through_witness :
  compute_sum (Failure CancelledError) (SumParams.mk 1 2) = ([], Raise CancelledError)
  /\ compute_sum (Failure (SystemExit "bye")) (SumParams.mk 1 2)
       = ([], Raise (SystemExit "bye")).
Proof.
  split.
  - apply (compute_sum_lets_base_exceptions_through CancelledError); reflexivity.
  - apply (compute_sum_lets_base_exceptions_through (SystemExit "bye")); reflexivity.
Defined.

(** *** What the handlers log *)

(** The events of one call: the record of the failure a clause caught, or
    nothing. *)
Lemma invoke_caught (c : tool_call) :
  invoke c = match caught c with
             | Some exc => [caught_record exc]
             | None => []
             end.
Proof.
  destruct c as [|params|sc params]; cbn [invoke caught]; try reflexivity.
  destruct (raised_in_block sc) as [exc|] eqn:Hsc.
  - unfold caught_record.
    destruct (isinstance exc "TimeoutError") eqn:Hto; cbn [orb].
    + rewrite (except_timeout_clause _ _ params Hsc Hto), Hto. reflexivity.
    + destruct (isinstance exc "Exception") eqn:Hex.
      * rewrite (except_exception_clause _ _ params Hsc Hto Hex), Hto.
        reflexivity.
      * rewrite (except_no_clause _ _ params Hsc Hto Hex). reflexivity.
  - rewrite (block_returns sc params Hsc). reflexivity.
Qed.

(** X4.  The handlers log caught failures and nothing else.  Over any
    sequence of tool calls the events are, in the order of the calls, one
    ERROR record on standard error for each call in which a clause of
    [compute_sum] caught a failure; the record names the clause and its
    [exc_info] is the very exception that was caught.  Calls that succeed,
    the deadline passing, and failures no clause catches leave no event. *)
Theorem handlers_log_caught_failures_only (calls : list tool_call) :
  flat_map invoke calls = map caught_record (omap caught calls)
  /\ (forall exc,
        caught_record exc
        = Write stderr
            (Record_
               (mkLogRecord Logging.ERROR logger_name
                  (if isinstance exc "TimeoutError"
                   then "compute_sum timed out"
                   else "compute_sum encountered an unexpected error")
                  [] (Some exc))))
  /\ (forall (sc : scenario) (params : SumParams.t) (exc : exn),
        caught (Call_compute_sum sc params) = Some exc ->
        sc = Failure exc)
  /\ caught Call_health_check = None
  /\ (forall params, caught (Call_echo_text params) = None)
  /\ (forall params, caught (Call_compute_sum Undisturbed params) = None)
  /\ (forall params, caught (Call_compute_sum DeadlineElapsed params) = None).
Proof.
  split; [|repeat split].
  - induction calls as [|c calls IH]; [reflexivity|].
    cbn [flat_map]. rewrite IH, invoke_caught. simpl omap.
    destruct (caught c); reflexivity.
  - intros sc params exc. cbn [caught].
    destruct sc as [| |exc']; cbn [raised_in_block]; try discriminate.
    destruct (_ || _); [|discriminate]. now intros [= ->].
Qed.

Lemma float_add_zero_r (x : float) : x <> neg_zero -> (x + 0)%float = x.
Proof.
  intros Hx. apply Prim2SF_inj. rewrite add_spec.
  change (Prim2SF 0) with (S754_zero false).
  destruct (Prim2SF x) as [s|s| |s m e] eqn:E; try reflexivity.
  destruct s; [|reflexivity].
  exfalso. apply Hx. apply Prim2SF_inj. now rewrite E.
Qed.

(** The IEEE 754 value of a double for which [is_finite] holds, and of one
    for which it does not. *)
Lemma is_finite_cases (x : float) :
  match Prim2SF x with
  | S754_zero _ | S754_finite _ _ _ => is_finite x = true
  | S754_infinity _ | S754_nan => is_finite x = false
  end.
Proof.
  unfold is_finite, is_nan, is_infinity.
  rewrite !FloatAxioms.eqb_spec, abs_spec.
  destruct (Prim2SF x) as [s|s| |s m e]; try reflexivity.
  - destruct s; reflexivity.
  - unfold SFeqb. cbn. rewrite Z.compare_refl, Pos.compare_cont_refl.
    destruct s; reflexivity.
Qed.

(** X5.  Zero is neutral for [compute_sum] on every double but negative
    zero: [compute_sum(a, 0.0)] returns [a] itself (NaN and the infinities
    included), while [-0.0 + 0.0] is [+0.0]. *)
Theorem compute_sum_zero_neutral (a : float) :
  a <> neg_zero ->
  compute_sum Undisturbed (SumParams.mk a 0) = ([], Return (SumResult.mk a))
  /\ compute_sum Undisturbed (SumParams.mk 0 a) = ([], Return (SumResult.mk a))
  /\ compute_sum Undisturbed (SumParams.mk neg_zero 0) = ([], Return (SumResult.mk 0))
  /\ neg_zero <> 0%float.
Proof.
  intros Ha. rewrite !compute_sum_undisturbed. cbn.
  rewrite (float_add_comm 0 a), (float_add_zero_r a Ha).
  repeat split. intros H. apply (f_equal Prim2SF) in H. discriminate H.
Qed.

Lemma compute_sum_zero_neutral_witness :
  compute_sum Undisturbed (SumParams.mk 2.5 0) = ([], Return (SumResult.mk 2.5))
  /\ compute_sum Undisturbed (SumParams.mk infinity 0)
       = ([], Return (SumResult.mk infinity)).
Proof.
  split.
  - apply (compute_sum_zero_neutral 2.5).
    intros H. apply (f_equal Prim2SF) in H. discriminate H.
  - apply (compute_sum_zero_neutral infinity).
    intros H. apply (f_equal Prim2SF) in H. discriminate H.
Defined.

(** X6.  A finite double and its negation sum to [+0.0] exactly, whatever
    their magnitude; for an infinity or NaN the sum with its negation is
    NaN. *)
Theorem compute_sum_opposites (a : float) :
  (is_finite a = true ->
   compute_sum Undisturbed (SumParams.mk a (- a)) = ([], Return (SumResult.mk 0)))
  /\ (is_finite a = false ->
      compute_sum Undisturbed (SumParams.mk a (- a)) = ([], Return (SumResult.mk nan))).
Proof.
  rewrite compute_sum_undisturbed. cbn.
  pose proof (is_finite_cases a) as Hc.
  assert (Hsum : Prim2SF (a + - a) = SF64add (Prim2SF a) (SFopp (Prim2SF a)))
    by now rewrite add_spec, opp_spec.
  split; intros Hf; unfold ret; do 3 f_equal; apply Prim2SF_inj; rewrite Hsum;
    destruct (Prim2SF a) as [s|s| |s m e]; try congruence;
    try reflexivity; try (destruct s; reflexivity).
  cbn [SFopp]. unfold SF64add, SFadd. rewrite Z.min_id.
  unfold shl_align. rewrite Z.sub_diag. cbn [fst].
  replace (cond_Zopp s (Z.pos m) + cond_Zopp (negb s) (Z.pos m)) with 0
    by (destruct s; cbn [cond_Zopp negb]; lia).
  reflexivity.
Qed.

Lemma compute_sum_opposites_witness :
  is_finite 0x1.fffffffffffffp1023 = true
  /\ compute_sum Undisturbed
       (SumParams.mk 0x1.fffffffffffffp1023 (- 0x1.fffffffffffffp1023))
     = ([], Return (SumResult.mk 0))
  /\ is_finite infinity = false
  /\ compute_sum Undisturbed (SumParams.mk infinity (- infinity))
     = ([], Return (SumResult.mk nan)).
Proof.
  split; [reflexivity|]. split; [|split; [reflexivity|]].
  - apply (proj1 (compute_sum_opposites 0x1.fffffffffffffp1023)). reflexivity.
  - apply (proj2 (compute_sum_opposites infinity)). reflexivity.
Defined.

(* ===================================================================== *)
(** ** Further properties of the entry point *)
(* ===================================================================== *)

(** X7.  Given the interpreter's digit limit, [main] reads three
    environment variables and nothing else: two environments that agree on
    [MCP_TRANSPORT], [MCP_HTTP_PORT] and [MCP_HTTP_HOST] give, under the
    same limit, the same run of the script, events and exit status alike. *)
Theorem main_reads_three_variables (limit : nat)
  (environ environ' : gmap string string) :
  environ !! "MCP_TRANSPORT" = environ' !! "MCP_TRANSPORT" ->
  environ !! "MCP_HTTP_PORT" = environ' !! "MCP_HTTP_PORT" ->
  environ !! "MCP_HTTP_HOST" = environ' !! "MCP_HTTP_HOST" ->
  main limit environ = main limit environ'
  /\ script limit environ = script limit environ'.
Proof.
  intros Ht Hp Hh.
  assert (Hm : main limit environ = main limit environ')
    by (unfold main, environ_get; now rewrite Ht, Hp, Hh).
  split; [exact Hm|]. unfold script. now rewrite Hm.
Qed.

Lemma main_reads_three_variables_witness :
  script 4300 {[ "MCP_TRANSPORT" := "http"; "HOME" := "/root"; "PATH" := "/usr/bin" ]}
  = script 4300 {[ "MCP_TRANSPORT" := "http" ]}.
Proof.
  apply (main_reads_three_variables 4300
           {[ "MCP_TRANSPORT" := "http"; "HOME" := "/root"; "PATH" := "/usr/bin" ]}
           {[ "MCP_TRANSPORT" := "http" ]}); reflexivity.
Defined.

(** X8.  The HTTP settings are read in the HTTP branch only: unless the
    lower-cased transport is "http", [main] depends on [MCP_TRANSPORT] alone,
    so a port that is no integer does no harm under the stdio transport and
    does not change the invalid-configuration exit.  The digit limit of the
    interpreter plays no part either. *)
Theorem http_settings_unread_unless_http (limit limit' : nat)
  (environ environ' : gmap string string) :
  environ !! "MCP_TRANSPORT" = environ' !! "MCP_TRANSPORT" ->
  lower (environ_get environ "MCP_TRANSPORT" "stdio") <> "http" ->
  main limit environ = main limit' environ'
  /\ script limit environ = script limit' environ'.
Proof.
  intros Ht Hne.
  assert (Hget : environ_get environ' "MCP_TRANSPORT" "stdio"
                 = environ_get environ "MCP_TRANSPORT" "stdio")
    by (unfold environ_get; now rewrite Ht).
  assert (Hm : main limit environ = main limit' environ').
  { destruct (String.eqb_spec
                (lower (environ_get environ "MCP_TRANSPORT" "stdio")) "stdio")
      as [Hs|Hs].
    - rewrite (main_stdio_branch limit environ Hs).
      symmetry. apply main_stdio_branch. now rewrite Hget.
    - rewrite (main_else_branch limit environ Hs Hne).
      rewrite (main_else_branch limit' environ'); rewrite Hget; auto. }
  split; [exact Hm|]. unfold script. now rewrite Hm.
Qed.

Lemma http_settings_unread_unless_http_witness :
  main 4300 {[ "MCP_HTTP_PORT" := "not a port" ]} = stdio_startup
  /\ script 4300 {[ "MCP_TRANSPORT" := "pigeon"; "MCP_HTTP_PORT" := "x" ]}
     = script 4300 {[ "MCP_TRANSPORT" := "pigeon" ]}.
Proof.
  split.
  - transitivity (main 4300 ∅); [|reflexivity].
    apply (http_settings_unread_unless_http 4300 4300
             {[ "MCP_HTTP_PORT" := "not a port" ]} ∅);
      [reflexivity|discriminate].
  - apply (http_settings_unread_unless_http 4300 4300
             {[ "MCP_TRANSPORT" := "pigeon"; "MCP_HTTP_PORT" := "x" ]}
             {[ "MCP_TRANSPORT" := "pigeon" ]}); [reflexivity|discriminate].
Defined.

(** X9.  The exit status of the script is 0 or 1, and it is 0 exactly when
    a transport was started; a status of 1 always comes with a last word on
    standard error, the exit text or a traceback, and with no transport. *)
Theorem exit_status_reflects_startup (limit : nat) (environ : gmap string string) :
  (snd (script limit environ) = 0 \/ snd (script limit environ) = 1)
  /\ (snd (script limit environ) = 0 <->
      Exists (fun ev => starts_transport ev = true) (fst (script limit environ)))
  /\ (snd (script limit environ) = 1 ->
      exists pre o,
        fst (script limit environ) = (pre ++ [Write stderr o])%list
        /\ ((exists t, o = Text t) \/ (exists e, o = Traceback e))).
Proof.
  unfold script.
  destruct (main_by_condition limit environ)
    as [(_ & H)|[(_ & port & _ & H)|[(_ & msg & _ & H)|(_ & _ & H)]]];
    rewrite H; cbn.
  - split; [now left|]. split; [|discriminate].
    split; [intros _|reflexivity].
    apply Exists_exists. exists Run. split; [right; left|]; reflexivity.
  - split; [now right|]. split.
    + split; [discriminate|]. intros Hex. apply Exists_exists in Hex.
      destruct Hex as (ev & Hin & Hev).
      apply list_elem_of_In in Hin. destruct Hin as [<-|[<-|[]]]; discriminate Hev.
    + intros _. eexists [_], _. split; [reflexivity|]. right. now eexists.
  - split; [now right|]. split.
    + split; [discriminate|]. intros Hex. apply Exists_exists in Hex.
      destruct Hex as (ev & Hin & Hev).
      apply list_elem_of_In in Hin. destruct Hin as [<-|[]]. discriminate Hev.
    + intros _. eexists [], _. split; [reflexivity|]. right. now eexists.
  - split; [now right|]. split.
    + split; [discriminate|]. intros Hex. apply Exists_exists in Hex.
      destruct Hex as (ev & Hin & Hev).
      apply list_elem_of_In in Hin. destruct Hin as [<-|[<-|[]]]; discriminate Hev.
    + intros _. eexists [_], _. split; [reflexivity|]. left. now eexists.
Qed.

(** X10.  [main] starts at most one transport, as the last thing it does,
    after exactly one INFO record on standard error announcing it; when it
    starts one it returns normally. *)
Theorem transport_start_is_last_and_announced (limit : nat)
  (environ : gmap string string) (pre post : list event) (ev : event) :
  events (main limit environ) = (pre ++ ev :: post)%list ->
  starts_transport ev = true ->
  post = []
  /\ result_of (main limit environ) = Return tt
  /\ exists r : LogRecord,
       pre = [Write stderr (Record_ r)]
       /\ levelno r = Logging.INFO
       /\ exc_info r = None.
Proof.
  intros Hev Hstart.
  destruct (main_by_condition limit environ)
    as [(_ & H)|[(_ & port & _ & H)|[(_ & msg & _ & H)|(_ & _ & H)]]];
    rewrite H in *; cbn in Hev |- *.
  - destruct pre as [|x [|y pre]]; inversion Hev; subst; try discriminate Hstart.
    + repeat split. eexists. repeat split.
    + destruct pre; discriminate.
  - destruct pre as [|x pre]; inversion Hev; subst; try discriminate Hstart.
    destruct pre; discriminate.
  - destruct pre; discriminate.
  - destruct pre as [|x pre]; inversion Hev; subst; try discriminate Hstart.
    destruct pre; discriminate.
Qed.

Lemma transport_start_is_last_and_announced_witness :
  exists pre : list event,
    events (main 4300 ∅) = (pre ++ [Run])%list /\ length pre = 1%nat.
Proof.
  exists [info_line "Starting MCP server using stdio transport" []].
  split; [reflexivity|].
  destruct (transport_start_is_last_and_announced 4300 ∅
              [info_line "Starting MCP server using stdio transport" []] [] Run)
    as (_ & _ & r & Hpre & _); [reflexivity..|].
  now rewrite Hpre.
Defined.

(** *** The port text *)

Lemma chars_app (s1 s2 : string) :
  list_ascii_of_string (s1 ++ s2)
  = (list_ascii_of_string s1 ++ list_ascii_of_string s2)%list.
Proof. induction s1 as [|c s1 IH]; simpl; [reflexivity|now f_equal]. Qed.

Lemma space_not_digit (c : ascii) : is_space c = true -> digit_value c = None.
Proof. destruct c as [[] [] [] [] [] [] [] []]; vm_compute; congruence. Qed.

Lemma space_not_underscore (c : ascii) : is_space c = true -> Ascii.eqb c "_" = false.
Proof. destruct c as [[] [] [] [] [] [] [] []]; vm_compute; congruence. Qed.

Lemma space_not_sign (c : ascii) :
  is_space c = true -> Ascii.eqb c "-" = false /\ Ascii.eqb c "+" = false.
Proof. destruct c as [[] [] [] [] [] [] [] []]; vm_compute; intros H; now try discriminate H. Qed.

Lemma lstrip_spaces (ws cs : list ascii) :
  forallb is_space ws = true -> lstrip (ws ++ cs) = lstrip cs.
Proof.
  induction ws as [|w ws IH]; cbn; [reflexivity|].
  intros H. apply andb_true_iff in H as [Hw Hws]. rewrite Hw. now apply IH.
Qed.

Lemma lstrip_all_spaces (ws : list ascii) :
  forallb is_space ws = true -> lstrip ws = [].
Proof.
  intros H. rewrite <- (app_nil_r ws). now rewrite lstrip_spaces.
Qed.

(** What [lstrip] leaves is empty or starts with a character that is no
    space; in the first case the text was all spaces. *)
Lemma lstrip_cases (cs : list ascii) :
  (lstrip cs = [] /\ forallb is_space cs = true)
  \/ (exists c rest ws,
        lstrip cs = c :: rest /\ is_space c = false
        /\ cs = (ws ++ c :: rest)%list /\ forallb is_space ws = true).
Proof.
  induction cs as [|c cs IH]; cbn; [now left|].
  destruct (is_space c) eqn:Hc.
  - destruct IH as [[H1 H2]|(c' & rest & ws & H1 & H2 & H3 & H4)].
    + left. now split.
    + right. exists c', rest, (c :: ws). repeat split; try assumption.
      * now rewrite H3.
      * cbn. now rewrite Hc.
  - right. exists c, cs, []. repeat split; assumption.
Qed.

Lemma digits_tail_spaces (acc : Z) (n : nat) (ws : list ascii) :
  forallb is_space ws = true -> digits_tail acc n ws = Some (acc, n).
Proof.
  destruct ws as [|w ws]; [reflexivity|]. intros H. cbn [digits_tail].
  pose proof H as H'. cbn in H'. apply andb_true_iff in H' as [Hw _].
  now rewrite (space_not_digit w Hw), (space_not_underscore w Hw), H.
Qed.

(** Trailing spaces do not change what [digits_tail] reads. *)
Lemma digits_tail_padded (ws : list ascii) :
  forallb is_space ws = true ->
  forall cs,
    (forall acc n, digits_tail acc n (cs ++ ws) = digits_tail acc n cs)
    /\ (forall c acc n,
          digits_tail acc n (c :: cs ++ ws) = digits_tail acc n (c :: cs)).
Proof.
  intros Hws.
  assert (Hstep : forall c cs,
             (forall acc n, digits_tail acc n (cs ++ ws) = digits_tail acc n cs) ->
             (forall acc n,
                 match cs with
                 | [] => True
                 | _ :: cs' => digits_tail acc n (cs' ++ ws) = digits_tail acc n cs'
                 end) ->
             forall acc n,
               digits_tail acc n (c :: cs ++ ws) = digits_tail acc n (c :: cs)).
  { intros c cs H1 H2 acc n. cbn [digits_tail].
    destruct (digit_value c) as [d|]; [apply H1|].
    destruct (Ascii.eqb c "_").
    - destruct cs as [|c' cs'].
      + cbn [app]. destruct ws as [|w ws']; [reflexivity|].
        cbn in Hws. apply andb_true_iff in Hws as [Hw _].
        now rewrite (space_not_digit w Hw).
      + cbn [app]. destruct (digit_value c'); [apply H2|reflexivity].
    - change (c :: cs ++ ws)%list with ((c :: cs) ++ ws)%list.
      rewrite forallb_app, Hws, andb_true_r. reflexivity. }
  induction cs as [|c' cs [IH1 IH2]].
  - split.
    + intros acc n. cbn [app]. now apply digits_tail_spaces.
    + intros c acc n. apply Hstep; [|easy].
      intros acc' n'. cbn [app]. now apply digits_tail_spaces.
  - split.
    + intros acc n. apply IH2.
    + intros c acc n. apply (Hstep c (c' :: cs)).
      * intros acc' n'. apply IH2.
      * intros acc' n'. apply IH1.
Qed.

Lemma unsigned_literal_padded (cs ws : list ascii) :
  forallb is_space ws = true ->
  unsigned_literal (cs ++ ws) = unsigned_literal cs.
Proof.
  intros Hws. destruct cs as [|c cs]; cbn [app unsigned_literal].
  - destruct ws as [|w ws']; [reflexivity|].
    cbn in Hws. apply andb_true_iff in Hws as [Hw _].
    cbn [unsigned_literal]. now rewrite (space_not_digit w Hw).
  - destruct (digit_value c); [|reflexivity].
    apply (digits_tail_padded ws Hws cs).
Qed.

(** Spaces before and after an integer literal are ignored. *)
Lemma parse_int_padded (pre v post : string) :
  forallb is_space (list_ascii_of_string pre) = true ->
  forallb is_space (list_ascii_of_string post) = true ->
  parse_int (pre ++ v ++ post) = parse_int v.
Proof.
  intros Hpre Hpost. unfold parse_int.
  rewrite !chars_app, (lstrip_spaces _ _ Hpre).
  destruct (lstrip_cases (list_ascii_of_string v))
    as [[Hv Hall]|(c & rest & ws & Hv & Hc & Hsplit & Hws)].
  - rewrite Hv, lstrip_all_spaces; [reflexivity|].
    now rewrite forallb_app, Hall, Hpost.
  - rewrite Hv, Hsplit, <- app_assoc, (lstrip_spaces _ _ Hws).
    cbn [app lstrip]. rewrite Hc.
    destruct (Ascii.eqb c "-").
    + now rewrite (unsigned_literal_padded rest _ Hpost).
    + destruct (Ascii.eqb c "+").
      * now rewrite (unsigned_literal_padded rest _ Hpost).
      * change (c :: rest ++ list_ascii_of_string post)%list
          with ((c :: rest) ++ list_ascii_of_string post)%list.
        now rewrite (unsigned_literal_padded (c :: rest) _ Hpost).
Qed.

(** Trailing spaces do not change the run that is scanned. *)
Lemma run_digits_padded (ws : list ascii) :
  forallb is_space ws = true ->
  forall cs,
    (forall n, run_digits n (cs ++ ws) = run_digits n cs)
    /\ (forall c n, run_digits n (c :: cs ++ ws) = run_digits n (c :: cs)).
Proof.
  intros Hws.
  assert (Hbase : forall n, run_digits n ws = Some n).
  { intros n. destruct ws as [|w ws']; [reflexivity|].
    cbn in Hws. apply andb_true_iff in Hws as [Hw _]. cbn [run_digits].
    now rewrite (space_not_digit w Hw), (space_not_underscore w Hw). }
  assert (Hstep : forall c cs,
             (forall n, run_digits n (cs ++ ws) = run_digits n cs) ->
             (forall n,
                 match cs with
                 | [] => True
                 | _ :: cs' => run_digits n (cs' ++ ws) = run_digits n cs'
                 end) ->
             forall n, run_digits n (c :: cs ++ ws) = run_digits n (c :: cs)).
  { intros c cs H1 H2 n. cbn [run_digits].
    destruct (digit_value c) as [d|]; [apply H1|].
    destruct (Ascii.eqb c "_"); [|reflexivity].
    destruct cs as [|c' cs'].
    - cbn [app]. destruct ws as [|w ws']; [reflexivity|].
      cbn in Hws. apply andb_true_iff in Hws as [Hw _].
      now rewrite (space_not_digit w Hw).
    - cbn [app]. destruct (digit_value c'); [apply H2|reflexivity]. }
  induction cs as [|c' cs [IH1 IH2]].
  - split.
    + intros n. cbn [app]. rewrite Hbase. reflexivity.
    + intros c n. apply Hstep; [|easy].
      intros n'. cbn [app]. rewrite Hbase. reflexivity.
  - split.
    + intros n. apply IH2.
    + intros c n. apply (Hstep c (c' :: cs)).
      * intros n'. apply IH2.
      * intros n'. apply IH1.
Qed.

(** Spaces before and after the text do not change the digits scanned. *)
Lemma scanned_digits_padded (pre v post : string) :
  forallb is_space (list_ascii_of_string pre) = true ->
  forallb is_space (list_ascii_of_string post) = true ->
  scanned_digits (pre ++ v ++ post) = scanned_digits v.
Proof.
  intros Hpre Hpost. unfold scanned_digits.
  rewrite !chars_app, (lstrip_spaces _ _ Hpre).
  assert (Hbody : forall cs,
             match (cs ++ list_ascii_of_string post)%list with
             | c0 :: rest0 =>
                 match digit_value c0 with
                 | Some _ => run_digits 1 rest0
                 | None => None
                 end
             | [] => None
             end
             = match cs with
               | c0 :: rest0 =>
                   match digit_value c0 with
                   | Some _ => run_digits 1 rest0
                   | None => None
                   end
               | [] => None
               end).
  { intros [|c0 rest0]; cbn [app].
    - destruct (list_ascii_of_string post) as [|w ws'] eqn:Hp; [reflexivity|].
      cbn in Hpost. apply andb_true_iff in Hpost as [Hw _].
      now rewrite (space_not_digit w Hw).
    - destruct (digit_value c0); [|reflexivity].
      apply (run_digits_padded _ Hpost rest0). }
  destruct (lstrip_cases (list_ascii_of_string v))
    as [[Hv Hall]|(c & rest & ws & Hv & Hc & Hsplit & Hws)].
  - rewrite Hv, lstrip_all_spaces; [reflexivity|].
    now rewrite forallb_app, Hall, Hpost.
  - rewrite Hv, Hsplit, <- app_assoc, (lstrip_spaces _ _ Hws).
    cbn [app lstrip]. rewrite Hc.
    destruct (Ascii.eqb c "-" || Ascii.eqb c "+").
    + apply Hbody.
    + apply (Hbody (c :: rest)).
Qed.

(** What [digits_tail] counts is what the scan counts. *)
Lemma digits_tail_run (cs : list ascii) :
  (forall acc k v n,
      digits_tail acc k cs = Some (v, n) -> run_digits k cs = Some n)
  /\ (forall c acc k v n,
        digits_tail acc k (c :: cs) = Some (v, n) ->
        run_digits k (c :: cs) = Some n).
Proof.
  assert (Hstep : forall c cs,
             (forall acc k v n,
                 digits_tail acc k cs = Some (v, n) -> run_digits k cs = Some n) ->
             (forall acc k v n,
                 match cs with
                 | [] => True
                 | _ :: cs' =>
                     digits_tail acc k cs' = Some (v, n) ->
                     run_digits k cs' = Some n
                 end) ->
             forall acc k v n,
               digits_tail acc k (c :: cs) = Some (v, n) ->
               run_digits k (c :: cs) = Some n).
  { intros c l H1 H2 acc k v n. cbn [digits_tail run_digits].
    destruct (digit_value c) as [d|]; [apply H1|].
    destruct (Ascii.eqb c "_").
    - destruct l as [|c' l']; [discriminate|].
      destruct (digit_value c'); [apply H2|discriminate].
    - destruct (forallb is_space (c :: l)); [|discriminate].
      now intros [= _ ->]. }
  induction cs as [|c' cs [IH1 IH2]].
  - split.
    + intros acc k v n. cbn. now intros [= _ ->].
    + intros c. apply Hstep; [|easy].
      intros acc k v n. cbn. now intros [= _ ->].
  - split.
    + intros acc k v n. apply IH2.
    + intros c. apply (Hstep c (c' :: cs)).
      * intros acc k v n. apply IH2.
      * intros acc k v n. apply IH1.
Qed.

(** The digits [int] scans in a literal are those of the literal. *)
Lemma parse_int_scanned (s : string) (v : Z) (n : nat) :
  parse_int s = Some (v, n) -> scanned_digits s = Some n.
Proof.
  unfold parse_int, scanned_digits.
  assert (Hbody : forall cs v' n',
             unsigned_literal cs = Some (v', n') ->
             match cs with
             | c0 :: rest0 =>
                 match digit_value c0 with
                 | Some _ => run_digits 1 rest0
                 | None => None
                 end
             | [] => None
             end = Some n').
  { intros [|c0 rest0] v' n'; cbn [unsigned_literal]; [discriminate|].
    destruct (digit_value c0); [|discriminate].
    apply (proj1 (digits_tail_run rest0)). }
  destruct (lstrip (list_ascii_of_string s)) as [|c rest]; [discriminate|].
  destruct (Ascii.eqb c "-"); cbn [orb].
  - destruct (unsigned_literal rest) as [[v' n']|] eqn:Hu; [|discriminate].
    intros [= _ <-]. exact (Hbody _ _ _ Hu).
  - destruct (Ascii.eqb c "+"); apply Hbody.
Qed.

(** A literal converts when its digits are below the threshold, or within
    the limit, or when there is no limit. *)
Lemma int_of_literal (limit : nat) (s : string) (v : Z) (n : nat) :
  parse_int s = Some (v, n) ->
  (n <= str_digits_check_threshold \/ limit = 0 \/ n <= limit)%nat ->
  int limit s = ret v.
Proof.
  intros Hp Hn. unfold int. rewrite (parse_int_scanned s v n Hp), Hp.
  replace ((str_digits_check_threshold <? n) && (0 <? limit) && (limit <? n))%nat
    with false; [reflexivity|].
  symmetry. rewrite !andb_false_iff, !Nat.ltb_ge. lia.
Qed.

(** Padding the text with spaces changes nothing in whether and to what it
    converts. *)
Lemma int_padded (limit : nat) (pre v post : string) (p : Z) :
  forallb is_space (list_ascii_of_string pre) = true ->
  forallb is_space (list_ascii_of_string post) = true ->
  int limit (pre ++ v ++ post) = ret p <-> int limit v = ret p.
Proof.
  intros Hpre Hpost. unfold int.
  rewrite (scanned_digits_padded pre v post Hpre Hpost).
  rewrite (parse_int_padded pre v post Hpre Hpost).
  destruct (scanned_digits v); [|split; discriminate].
  destruct (_ && _); [split; discriminate|].
  destruct (parse_int v) as [[z k]|]; [reflexivity|split; discriminate].
Qed.

(** Of the port text, [main] uses what [int] makes of it and nothing else. *)
Lemma main_port_text (limit : nat) (environ : gmap string string)
  (text text' : string) :
  int limit text = int limit text' ->
  main limit (<["MCP_HTTP_PORT" := text]> environ)
  = main limit (<["MCP_HTTP_PORT" := text']> environ).
Proof.
  intros H. unfold main.
  rewrite !environ_get_insert_eq, H.
  now rewrite !(environ_get_insert_ne _ "MCP_HTTP_PORT") by discriminate.
Qed.

(** X12.  Whitespace around the port text is ignored by the conversion:
    for an ASCII text [v] and ASCII blanks, tabs or line ends around it, the
    padded text converts exactly when [v] does and to the same integer, in
    which case [main] does the same with either; when [v] does not
    convert, the padded text raises a [ValueError] as well. *)
Theorem port_text_may_be_padded (limit : nat) (environ : gmap string string)
  (pre v post : string) :
  forallb is_space (list_ascii_of_string pre) = true ->
  forallb is_space (list_ascii_of_string post) = true ->
  ascii_text v = true ->
  (forall port : Z,
      int limit (pre ++ v ++ post) = ret port <-> int limit v = ret port)
  /\ (forall port : Z,
        int limit v = ret port ->
        main limit (<["MCP_HTTP_PORT" := pre ++ v ++ post]> environ)
        = main limit (<["MCP_HTTP_PORT" := v]> environ))
  /\ ((exists msg, int limit v = raise (ValueError msg)) ->
      exists msg', int limit (pre ++ v ++ post) = raise (ValueError msg')).
Proof.
  intros Hpre Hpost _.
  assert (Hiff : forall port : Z,
             int limit (pre ++ v ++ post) = ret port <-> int limit v = ret port)
    by (intros port; now apply int_padded).
  split; [exact Hiff|]. split.
  - intros port Hport. apply main_port_text.
    rewrite Hport. now apply Hiff.
  - intros [msg Hmsg].
    destruct (int_cases limit (pre ++ v ++ post)) as [[port Hport]|Hraise];
      [|exact Hraise].
    apply Hiff in Hport. rewrite Hport in Hmsg. discriminate Hmsg.
Qed.

Lemma port_text_may_be_padded_witness :
  int 4300 (" " ++ "8080" ++ String "010" "") = ret 8080
  /\ main 4300 {[ "MCP_TRANSPORT" := "http"; "MCP_HTTP_PORT" := " 8080" ++ String "010" "" ]}
     = http_attempt "127.0.0.1" 8080.
Proof.
  destruct (port_text_may_be_padded 4300 {[ "MCP_TRANSPORT" := "http" ]}
              " " "8080" (String "010" "")) as (Hiff & Hmain & _);
    [reflexivity..|].
  split.
  - apply Hiff. reflexivity.
  - transitivity (main 4300 (<["MCP_HTTP_PORT" := "8080"]> {[ "MCP_TRANSPORT" := "http" ]}));
      [|reflexivity].
    transitivity (main 4300 (<["MCP_HTTP_PORT" := " " ++ "8080" ++ String "010" ""]>
                               {[ "MCP_TRANSPORT" := "http" ]})); [reflexivity|].
    apply (Hmain 8080). reflexivity.
Defined.

(** *** Reading back a port written in decimal *)

Lemma digits_tail_uint (d : Decimal.uint) (acc : Z) (n : nat) :
  digits_tail acc n (list_ascii_of_string (NilEmpty.string_of_uint d))
  = Some (uint_acc d acc, (n + Decimal.nb_digits d)%nat).
Proof.
  revert acc n.
  induction d as [|d IH|d IH|d IH|d IH|d IH|d IH|d IH|d IH|d IH|d IH];
    intros acc n;
    cbn [NilEmpty.string_of_uint list_ascii_of_string digits_tail uint_acc
         Decimal.nb_digits];
    [now rewrite Nat.add_0_r|..];
    match goal with
    | |- context [digit_value ?c] =>
        let v := eval vm_compute in (digit_value c) in
        change (digit_value c) with v
    end;
    cbv iota beta; rewrite IH; now rewrite Nat.add_succ_r.
Qed.

(** [uint_acc] agrees with the library's reading of decimal digits. *)
Lemma uint_acc_of_uint (d : Decimal.uint) (a : N) :
  uint_acc d (Z.of_N a)
  = Z.of_N (match a with
            | N0 => Pos.of_uint d
            | Npos p => Npos (Pos.of_uint_acc d p)
            end).
Proof.
  revert a.
  induction d as [|d IH|d IH|d IH|d IH|d IH|d IH|d IH|d IH|d IH|d IH];
    intros [|p]; cbn [uint_acc Pos.of_uint Pos.of_uint_acc]; try reflexivity;
    match goal with
    | |- uint_acc _ ?x = Z.of_N (Pos.of_uint _) => apply (IH 0%N)
    | |- uint_acc _ ?x = Z.of_N (N.pos (Pos.of_uint_acc _ ?q)) =>
        rewrite <- (IH (N.pos q)); f_equal; cbn [Z.of_N]; lia
    end.
Qed.

(** Evaluate the tests [parse_int] makes on a known first character. *)
Ltac eval_char_tests :=
  repeat match goal with
    | |- context [is_space (Ascii ?b0 ?b1 ?b2 ?b3 ?b4 ?b5 ?b6 ?b7)] =>
        let c := constr:(Ascii b0 b1 b2 b3 b4 b5 b6 b7) in
        let v := eval vm_compute in (is_space c) in
        change (is_space c) with v
    | |- context [digit_value (Ascii ?b0 ?b1 ?b2 ?b3 ?b4 ?b5 ?b6 ?b7)] =>
        let c := constr:(Ascii b0 b1 b2 b3 b4 b5 b6 b7) in
        let v := eval vm_compute in (digit_value c) in
        change (digit_value c) with v
    | |- context [Ascii.eqb (Ascii ?b0 ?b1 ?b2 ?b3 ?b4 ?b5 ?b6 ?b7) ?c'] =>
        let c := constr:(Ascii b0 b1 b2 b3 b4 b5 b6 b7) in
        let v := eval vm_compute in (Ascii.eqb c c') in
        change (Ascii.eqb c c') with v
    end; cbv iota beta.

Lemma unsigned_literal_uint (d : Decimal.uint) :
  d <> Decimal.Nil ->
  unsigned_literal (list_ascii_of_string (NilEmpty.string_of_uint d))
  = Some (uint_acc d 0, Decimal.nb_digits d).
Proof.
  intros Hd. destruct d; [now contradiction Hd|..];
    cbn [NilEmpty.string_of_uint list_ascii_of_string unsigned_literal
         uint_acc Decimal.nb_digits];
    eval_char_tests; now rewrite digits_tail_uint.
Qed.

Lemma parse_int_uint (d : Decimal.uint) :
  d <> Decimal.Nil ->
  parse_int (NilEmpty.string_of_uint d)
  = Some (uint_acc d 0, Decimal.nb_digits d)
  /\ parse_int (String "-" (NilEmpty.string_of_uint d))
     = Some (- uint_acc d 0, Decimal.nb_digits d).
Proof.
  intros Hd. pose proof (unsigned_literal_uint d Hd) as Hu. split.
  - unfold parse_int. destruct d; [now contradiction Hd|..];
      cbn [NilEmpty.string_of_uint list_ascii_of_string lstrip] in *;
      eval_char_tests; exact Hu.
  - unfold parse_int. cbn [list_ascii_of_string lstrip]. eval_char_tests.
    now rewrite Hu.
Qed.

(** [int] reads back what [str] writes, with the digits counted. *)
Lemma parse_int_str (z : Z) :
  exists n : nat,
    parse_int (str z) = Some (z, n) /\ (n <= String.length (str z))%nat.
Proof.
  assert (Hlen : forall d, String.length (NilEmpty.string_of_uint d)
                           = Decimal.nb_digits d).
  { induction d; cbn; congruence. }
  assert (Hval : forall p, uint_acc (Pos.to_uint p) 0 = Z.pos p).
  { intros p. change 0 with (Z.of_N 0).
    rewrite (uint_acc_of_uint (Pos.to_uint p) 0%N).
    now rewrite DecimalPos.Unsigned.of_to. }
  assert (Hnil : forall p, NilZero.string_of_uint (Pos.to_uint p)
                           = NilEmpty.string_of_uint (Pos.to_uint p)).
  { intros p. pose proof (DecimalPos.Unsigned.to_uint_nonnil p) as Hn.
    destruct (Pos.to_uint p); [now contradiction Hn|reflexivity..]. }
  destruct z as [|p|p]; unfold str; cbn [Z.to_int NilZero.string_of_int].
  - exists 1%nat. split; [reflexivity|]. cbn. lia.
  - exists (Decimal.nb_digits (Pos.to_uint p)). rewrite Hnil.
    destruct (parse_int_uint (Pos.to_uint p)
                (DecimalPos.Unsigned.to_uint_nonnil p)) as [-> _].
    rewrite Hval, Hlen. split; [reflexivity|lia].
  - exists (Decimal.nb_digits (Pos.to_uint p)). rewrite Hnil.
    destruct (parse_int_uint (Pos.to_uint p)
                (DecimalPos.Unsigned.to_uint_nonnil p)) as [_ ->].
    rewrite Hval. cbn [String.length]. rewrite Hlen. split; [reflexivity|lia].
Qed.

(** [str] writes different integers differently. *)
Lemma str_inj (p q : Z) : str p = str q -> p = q.
Proof.
  intros H.
  destruct (parse_int_str p) as (n & Hp & _).
  destruct (parse_int_str q) as (m & Hq & _).
  rewrite H, Hq in Hp. now inversion Hp.
Qed.

(** X13.  The port is not range-checked: for every integer [p], negative
    ones and those above 65535 included, whose decimal writing has at most
    640 characters (so that no digit limit of the interpreter applies),
    setting [MCP_HTTP_PORT] to that writing under the HTTP transport makes
    [int] return [p] and [main] announce the endpoint with port [p], before
    it fails on the missing [run_http] as for any other port. *)
Theorem port_is_not_range_checked (limit : nat) (environ : gmap string string)
  (t : string) (p : Z) :
  environ !! "MCP_TRANSPORT" = Some t ->
  lower t = "http" ->
  environ !! "MCP_HTTP_PORT" = Some (str p) ->
  (String.length (str p) <= 640)%nat ->
  int limit (str p) = ret p
  /\ main limit environ
     = http_attempt (environ_get environ "MCP_HTTP_HOST" "127.0.0.1") p
  /\ Logging.getMessage
       (mkLogRecord Logging.INFO logger_name
          "Starting MCP server on http://%s:%s/mcp"
          [environ_get environ "MCP_HTTP_HOST" "127.0.0.1"; str p] None)
     = "Starting MCP server on http://"
       ++ environ_get environ "MCP_HTTP_HOST" "127.0.0.1" ++ ":" ++ str p ++ "/mcp".
Proof.
  intros Ht Hl Hp Hlen.
  assert (Hint : int limit (str p) = ret p).
  { destruct (parse_int_str p) as (n & Hparse & Hn).
    apply (int_of_literal limit _ _ n Hparse).
    left. unfold str_digits_check_threshold. lia. }
  split; [exact Hint|]. split; [|reflexivity].
  apply main_http_branch.
  - now rewrite (environ_get_set _ _ _ _ Ht).
  - now rewrite (environ_get_set _ _ _ _ Hp).
Qed.

Lemma port_is_not_range_checked_witness :
  main 4300 {[ "MCP_TRANSPORT" := "http"; "MCP_HTTP_PORT" := "70000" ]}
  = http_attempt "127.0.0.1" 70000
  /\ main 4300 {[ "MCP_TRANSPORT" := "http"; "MCP_HTTP_PORT" := "-1" ]}
     = http_attempt "127.0.0.1" (-1).
Proof.
  split.
  - refine (proj1 (proj2 (port_is_not_range_checked 4300
             {[ "MCP_TRANSPORT" := "http"; "MCP_HTTP_PORT" := "70000" ]}
             "http" 70000 _ _ _ _))); try reflexivity. vm_compute. lia.
  - refine (proj1 (proj2 (port_is_not_range_checked 4300
             {[ "MCP_TRANSPORT" := "http"; "MCP_HTTP_PORT" := "-1" ]}
             "http" (-1) _ _ _ _))); try reflexivity. vm_compute. lia.
Defined.

(** X11.  Which way [main] goes is decided as follows, and in no other way.
    It calls [mcp.run()] exactly when the lower-cased transport is "stdio";
    it never gets to call [run_http]; it raises [SystemExit] exactly when
    the lower-cased transport is neither "stdio" nor "http".  For an ASCII
    port text, it announces the HTTP endpoint for a host and a port, and
    then raises [AttributeError], exactly when the lower-cased transport is
    "http", the host is [MCP_HTTP_HOST] or its default and the port text
    converts to that port; and it raises [ValueError] exactly when the
    lower-cased transport is "http" and the port text does not convert. *)
Theorem main_branch_conditions (limit : nat) (environ : gmap string string) :
  (In Run (events (main limit environ)) <->
   lower (environ_get environ "MCP_TRANSPORT" "stdio") = "stdio")
  /\ (forall host port, ~ In (RunHttp host port) (events (main limit environ)))
  /\ ((exists e, result_of (main limit environ) = Raise e
                 /\ isinstance e "SystemExit" = true) <->
      lower (environ_get environ "MCP_TRANSPORT" "stdio") <> "stdio"
      /\ lower (environ_get environ "MCP_TRANSPORT" "stdio") <> "http")
  /\ (ascii_text (environ_get environ "MCP_HTTP_PORT" "3333") = true ->
      (forall host port,
          In (info_line "Starting MCP server on http://%s:%s/mcp" [host; str port])
            (events (main limit environ)) <->
          lower (environ_get environ "MCP_TRANSPORT" "stdio") = "http"
          /\ host = environ_get environ "MCP_HTTP_HOST" "127.0.0.1"
          /\ int limit (environ_get environ "MCP_HTTP_PORT" "3333") = ret port)
      /\ ((exists e, result_of (main limit environ) = Raise e
                     /\ isinstance e "AttributeError" = true) <->
          lower (environ_get environ "MCP_TRANSPORT" "stdio") = "http"
          /\ exists port,
               int limit (environ_get environ "MCP_HTTP_PORT" "3333") = ret port)
      /\ ((exists e, result_of (main limit environ) = Raise e
                     /\ isinstance e "ValueError" = true) <->
          lower (environ_get environ "MCP_TRANSPORT" "stdio") = "http"
          /\ exists msg,
               int limit (environ_get environ "MCP_HTTP_PORT" "3333")
               = raise (ValueError msg))).
Proof.
  destruct (main_by_condition limit environ)
    as [(Ht & H)|[(Ht & port & Hp & H)|[(Ht & msg & Hp & H)|(Hs & Hh & H)]]];
    rewrite H; cbn; rewrite ?Ht.
  - split; [|split; [|split; [|intros _; split; [|split]]]].
    + split; [reflexivity|]. intros _. right. now left.
    + intros host port [Hin|[Hin|[]]]; discriminate Hin.
    + split.
      * intros (e & He & _). discriminate He.
      * intros (Hd & _). now contradiction Hd.
    + intros host port. split.
      * intros [Hin|[Hin|[]]]; discriminate Hin.
      * intros (Hd & _). discriminate Hd.
    + split.
      * intros (e & He & _). discriminate He.
      * intros (Hd & _). discriminate Hd.
    + split.
      * intros (e & He & _). discriminate He.
      * intros (Hd & _). discriminate Hd.
  - split; [|split; [|split; [|intros _; split; [|split]]]].
    + split; [|discriminate]. intros [Hin|[]]. discriminate Hin.
    + intros host port' [Hin|[]]. discriminate Hin.
    + split.
      * intros (e & He & Hx). inversion He; subst e. discriminate Hx.
      * intros (_ & Hd). now contradiction Hd.
    + intros host port'. rewrite Hp. split.
      * intros [Hin|[]]. inversion Hin as [[Hhost Hport]].
        apply str_inj in Hport. subst. repeat split.
      * intros (_ & -> & Heq). inversion Heq; subst. now left.
    + split; [intros _; split; [reflexivity|now exists port]|].
      intros _. eexists. split; reflexivity.
    + rewrite Hp. split.
      * intros (e & He & Hx). inversion He; subst e. discriminate Hx.
      * intros (_ & msg & Hd). discriminate Hd.
  - split; [|split; [|split; [|intros _; split; [|split]]]].
    + split; [intros []|discriminate].
    + intros host port [].
    + split.
      * intros (e & He & Hx). inversion He; subst e. discriminate Hx.
      * intros (_ & Hd). now contradiction Hd.
    + intros host port. rewrite Hp. split; [intros []|].
      intros (_ & _ & Heq). discriminate Heq.
    + rewrite Hp. split.
      * intros (e & He & Hx). inversion He; subst e. discriminate Hx.
      * intros (_ & port & Hd). discriminate Hd.
    + split; [intros _; split; [reflexivity|now exists msg]|].
      intros _. eexists. split; reflexivity.
  - split; [|split; [|split; [|intros _; split; [|split]]]].
    + split; [|intros Hd; now contradiction Hs].
      intros [Hin|[]]. discriminate Hin.
    + intros host port [Hin|[]]. discriminate Hin.
    + split; [intros _; now split|]. intros _. eexists. split; reflexivity.
    + intros host port. split.
      * intros [Hin|[]]. discriminate Hin.
      * intros (Hd & _). now contradiction Hh.
    + split.
      * intros (e & He & Hx). inversion He; subst e. discriminate Hx.
      * intros (Hd & _). now contradiction Hh.
    + split.
      * intros (e & He & Hx). inversion He; subst e. discriminate Hx.
      * intros (Hd & _). now contradiction Hh.
Qed.

Lemma main_branch_conditions_witness :
  ascii_text (environ_get {[ "MCP_TRANSPORT" := "http" ]} "MCP_HTTP_PORT" "3333") = true
  /\ exists e,
       result_of (main 4300 {[ "MCP_TRANSPORT" := "http" ]}) = Raise e
       /\ isinstance e "AttributeError" = true.
Proof.
  split; [reflexivity|].
  destruct (main_branch_conditions 4300 {[ "MCP_TRANSPORT" := "http" ]})
    as (_ & _ & _ & Hhttp).
  destruct (Hhttp eq_refl) as (_ & Hattr & _).
  apply Hattr. split; [reflexivity|]. now exists 3333.
Defined.

(** *** The transport name *)

Lemma is_letter_lower_ascii (c : ascii) : is_letter (lower_ascii c) = is_letter c.
Proof. destruct c as [[] [] [] [] [] [] [] []]; reflexivity. Qed.

Lemma lower_keeps_letters (s : string) :
  forallb is_letter (list_ascii_of_string (lower s))
  = forallb is_letter (list_ascii_of_string s).
Proof.
  induction s as [|c s IH]; cbn [lower list_ascii_of_string forallb];
    [reflexivity|].
  now rewrite is_letter_lower_ascii, IH.
Qed.

Lemma lower_length (s : string) : String.length (lower s) = String.length s.
Proof. induction s as [|c s IH]; cbn; [reflexivity|now rewrite IH]. Qed.

(** X14.  The transport name is compared whole, with nothing trimmed: a
    value of [MCP_TRANSPORT] that holds any character other than an ASCII
    letter (a blank before or after the name, a line end, a quote), or
    whose length is neither 4 nor 5 (the empty text among them), takes the
    invalid-configuration exit with status 1. *)
Theorem transport_name_is_matched_whole (limit : nat)
  (environ : gmap string string) (v : string) :
  environ !! "MCP_TRANSPORT" = Some v ->
  forallb is_letter (list_ascii_of_string v) = false
  \/ (String.length v <> 4%nat /\ String.length v <> 5%nat) ->
  main limit environ = configuration_error (lower v)
  /\ snd (script limit environ) = 1.
Proof.
  intros Hv Hbad.
  assert (Hne : lower v <> "stdio" /\ lower v <> "http").
  { destruct Hbad as [Hl|[H4 H5]].
    - rewrite <- lower_keeps_letters in Hl.
      split; intros Heq; rewrite Heq in Hl; discriminate Hl.
    - rewrite <- lower_length in H4, H5.
      split; intros Heq; rewrite Heq in H4, H5; [now apply H5|now apply H4]. }
  destruct Hne as [Hs Hh].
  assert (Hm : main limit environ = configuration_error (lower v)).
  { rewrite <- (environ_get_set environ _ v "stdio" Hv) in *.
    now apply main_else_branch. }
  split; [exact Hm|]. unfold script. now rewrite Hm.
Qed.

Lemma transport_name_is_matched_whole_witness :
  snd (script 4300 {[ "MCP_TRANSPORT" := " stdio" ]}) = 1
  /\ snd (script 4300 {[ "MCP_TRANSPORT" := "" ]}) = 1.
Proof.
  split.
  - refine (proj2 (transport_name_is_matched_whole 4300
                     {[ "MCP_TRANSPORT" := " stdio" ]} " stdio" _ _));
      [reflexivity|left; reflexivity].
  - refine (proj2 (transport_name_is_matched_whole 4300
                     {[ "MCP_TRANSPORT" := "" ]} "" _ _));
      [reflexivity|right; split; discriminate].
Defined.
